(** * Consistent-character batch generator: the scene parser and the batch pipeline

    A shallow embedding of the application component ([App]: [handleFileChange],
    [handleGenerateAll], [handleDownloadImage], [handleReset],
    [handleOpenEditModal], [handleCloseEditModal], [handleRegenerate]) and of
    the service wrappers ([generateCharacterJson], [generateImageFromPrompt]).

    Strings are JavaScript strings, that is sequences of UTF-16 code units;
    values produced by [JSON.parse] are a tagged union; React state is a record
    that the handlers update in sequence; the two outbound calls go through an
    oracle that is asked once per call and whose requests are logged. *)

From Stdlib Require Import List NArith ZArith Arith Bool String Ascii Lia.
From Stdlib Require DecimalNat.
Import ListNotations.

Set Implicit Arguments.
Set Warnings "-register-all".

(* ================================================================== *)
(** ** JavaScript strings *)

(** A string is the list of its UTF-16 code units. *)
Definition jsstring := list N.

(** A literal of the source, written with ASCII characters only. *)
Definition lit (s : string) : jsstring :=
  map N_of_ascii (list_ascii_of_string s).

(** The characters the source writes inside literals that cannot be typed
    inside a literal here. *)
Definition dquote : jsstring := [34%N].
Definition backtick : jsstring := [96%N].

Definition jsstring_eq_dec : forall a b : jsstring, {a = b} + {a <> b} :=
  list_eq_dec N.eq_dec.

Definition str_eqb (a b : jsstring) : bool :=
  if jsstring_eq_dec a b then true else false.

(** [WhiteSpace] and [LineTerminator] of ECMAScript, the code units that
    [String.prototype.trim] strips. *)
Definition isWhiteSpace (c : N) : bool :=
  ((c =? 9) || (c =? 10) || (c =? 11) || (c =? 12) || (c =? 13) || (c =? 32)
   || (c =? 160) || (c =? 5760) || ((8192 <=? c) && (c <=? 8202))
   || (c =? 8232) || (c =? 8233) || (c =? 8239) || (c =? 8287)
   || (c =? 12288) || (c =? 65279))%N.

Fixpoint trimStart (s : jsstring) : jsstring :=
  match s with
  | [] => []
  | c :: s' => if isWhiteSpace c then trimStart s' else s
  end.

Definition trimEnd (s : jsstring) : jsstring := rev (trimStart (rev s)).

(** [s.trim()] *)
Definition trim (s : jsstring) : jsstring := trimEnd (trimStart s).

(** Truthiness of a string: the empty string is the only falsy one. *)
Definition nonEmpty (s : jsstring) : bool :=
  match s with [] => false | _ :: _ => true end.

(** Decimal rendering of an array index or a count inside a template
    literal. *)
Fixpoint digits (u : Decimal.uint) : jsstring :=
  match u with
  | Decimal.Nil => []
  | Decimal.D0 u => 48%N :: digits u
  | Decimal.D1 u => 49%N :: digits u
  | Decimal.D2 u => 50%N :: digits u
  | Decimal.D3 u => 51%N :: digits u
  | Decimal.D4 u => 52%N :: digits u
  | Decimal.D5 u => 53%N :: digits u
  | Decimal.D6 u => 54%N :: digits u
  | Decimal.D7 u => 55%N :: digits u
  | Decimal.D8 u => 56%N :: digits u
  | Decimal.D9 u => 57%N :: digits u
  end.

Definition numberToString (n : nat) : jsstring := digits (Nat.to_uint n).

(* ================================================================== *)
(** ** Values of [JSON.parse] *)

(** Numbers are never computed with by this program; only whether one is
    zero is ever observed (truthiness), so an integer stands for it.  An
    object is the list of its own properties in insertion order, each key
    occurring once, which is what [JSON.parse] builds. *)
Inductive json : Type :=
| JNull
| JBool (b : bool)
| JNum (z : Z)
| JStr (s : jsstring)
| JArr (elements : list json)
| JObj (properties : list (jsstring * json)).

(** [None] is [undefined]. *)
Definition jsval := option json.

Fixpoint lookup (k : jsstring) (props : list (jsstring * json)) : jsval :=
  match props with
  | [] => None
  | (k', v) :: rest => if str_eqb k k' then Some v else lookup k rest
  end.

(** Exceptions carry the [message] the handlers read. *)
Record exn : Type := Error { message : jsstring }.

Inductive outcome (A : Type) : Type :=
| Returned (a : A)
| Thrown (e : exn).
Arguments Returned {A} a.
Arguments Thrown {A} e.

(** Truthiness of a parsed value, as [!v] and [v ? _ : _] see it. *)
Definition truthy (v : json) : bool :=
  match v with
  | JNull => false
  | JBool b => b
  | JNum z => negb (z =? 0)%Z
  | JStr s => nonEmpty s
  | JArr _ | JObj _ => true
  end.

(* ================================================================== *)
(** ** Data model ([types.ts]) *)

Inductive SceneStatus : Type :=
| pending | analyzing | generating | complete | error.

Record SceneResult : Type := mkSceneResult
  { id : nat;
    scene : jsstring;
    jsonPrompt : json;           (* [JNull] is [null] *)
    image : option jsstring;
    status : SceneStatus;
    error_ : option jsstring }.  (* the field [error] *)

(** [Pick<CharacterPrompt, 'character_id' | 'appearance'>].  The cast
    [parsedJson as CharacterPrompt] checks nothing, so the two fields hold
    whatever the property reads gave. *)
Record BaseCharacter : Type := mkBaseCharacter
  { character_id : jsval;
    appearance : jsval }.

(** The React state of [App]. *)
Record AppState : Type := mkAppState
  { results : list SceneResult;
    isProcessing : bool;
    fileName : jsstring;
    progressMessage : jsstring;
    baseCharacterProfile : option BaseCharacter;
    editingScene : option SceneResult;
    editedJsonText : jsstring;
    jsonEditError : option jsstring;
    isRegenerating : bool;
    completedCount : nat;
    fileError : option jsstring }.

Definition initialState : AppState :=
  {| results := []; isProcessing := false; fileName := []; progressMessage := [];
     baseCharacterProfile := None; editingScene := None; editedJsonText := [];
     jsonEditError := None; isRegenerating := false; completedCount := 0;
     fileError := None |}.

(** The state setters of [useState]; the functional form of [setResults] and
    [setCompletedCount] takes the update function. *)
Definition setResults (f : list SceneResult -> list SceneResult) (st : AppState) : AppState :=
  {| results := f (results st); isProcessing := isProcessing st; fileName := fileName st;
     progressMessage := progressMessage st; baseCharacterProfile := baseCharacterProfile st;
     editingScene := editingScene st; editedJsonText := editedJsonText st;
     jsonEditError := jsonEditError st; isRegenerating := isRegenerating st;
     completedCount := completedCount st; fileError := fileError st |}.

Definition setIsProcessing (b : bool) (st : AppState) : AppState :=
  {| results := results st; isProcessing := b; fileName := fileName st;
     progressMessage := progressMessage st; baseCharacterProfile := baseCharacterProfile st;
     editingScene := editingScene st; editedJsonText := editedJsonText st;
     jsonEditError := jsonEditError st; isRegenerating := isRegenerating st;
     completedCount := completedCount st; fileError := fileError st |}.

Definition setFileName (s : jsstring) (st : AppState) : AppState :=
  {| results := results st; isProcessing := isProcessing st; fileName := s;
     progressMessage := progressMessage st; baseCharacterProfile := baseCharacterProfile st;
     editingScene := editingScene st; editedJsonText := editedJsonText st;
     jsonEditError := jsonEditError st; isRegenerating := isRegenerating st;
     completedCount := completedCount st; fileError := fileError st |}.

Definition setProgressMessage (s : jsstring) (st : AppState) : AppState :=
  {| results := results st; isProcessing := isProcessing st; fileName := fileName st;
     progressMessage := s; baseCharacterProfile := baseCharacterProfile st;
     editingScene := editingScene st; editedJsonText := editedJsonText st;
     jsonEditError := jsonEditError st; isRegenerating := isRegenerating st;
     completedCount := completedCount st; fileError := fileError st |}.

Definition setBaseCharacterProfile (b : option BaseCharacter) (st : AppState) : AppState :=
  {| results := results st; isProcessing := isProcessing st; fileName := fileName st;
     progressMessage := progressMessage st; baseCharacterProfile := b;
     editingScene := editingScene st; editedJsonText := editedJsonText st;
     jsonEditError := jsonEditError st; isRegenerating := isRegenerating st;
     completedCount := completedCount st; fileError := fileError st |}.

Definition setEditingScene (r : option SceneResult) (st : AppState) : AppState :=
  {| results := results st; isProcessing := isProcessing st; fileName := fileName st;
     progressMessage := progressMessage st; baseCharacterProfile := baseCharacterProfile st;
     editingScene := r; editedJsonText := editedJsonText st;
     jsonEditError := jsonEditError st; isRegenerating := isRegenerating st;
     completedCount := completedCount st; fileError := fileError st |}.

Definition setEditedJsonText (s : jsstring) (st : AppState) : AppState :=
  {| results := results st; isProcessing := isProcessing st; fileName := fileName st;
     progressMessage := progressMessage st; baseCharacterProfile := baseCharacterProfile st;
     editingScene := editingScene st; editedJsonText := s;
     jsonEditError := jsonEditError st; isRegenerating := isRegenerating st;
     completedCount := completedCount st; fileError := fileError st |}.

Definition setJsonEditError (e : option jsstring) (st : AppState) : AppState :=
  {| results := results st; isProcessing := isProcessing st; fileName := fileName st;
     progressMessage := progressMessage st; baseCharacterProfile := baseCharacterProfile st;
     editingScene := editingScene st; editedJsonText := editedJsonText st;
     jsonEditError := e; isRegenerating := isRegenerating st;
     completedCount := completedCount st; fileError := fileError st |}.

Definition setIsRegenerating (b : bool) (st : AppState) : AppState :=
  {| results := results st; isProcessing := isProcessing st; fileName := fileName st;
     progressMessage := progressMessage st; baseCharacterProfile := baseCharacterProfile st;
     editingScene := editingScene st; editedJsonText := editedJsonText st;
     jsonEditError := jsonEditError st; isRegenerating := b;
     completedCount := completedCount st; fileError := fileError st |}.

Definition setCompletedCount (f : nat -> nat) (st : AppState) : AppState :=
  {| results := results st; isProcessing := isProcessing st; fileName := fileName st;
     progressMessage := progressMessage st; baseCharacterProfile := baseCharacterProfile st;
     editingScene := editingScene st; editedJsonText := editedJsonText st;
     jsonEditError := jsonEditError st; isRegenerating := isRegenerating st;
     completedCount := f (completedCount st); fileError := fileError st |}.

Definition setFileError (e : option jsstring) (st : AppState) : AppState :=
  {| results := results st; isProcessing := isProcessing st; fileName := fileName st;
     progressMessage := progressMessage st; baseCharacterProfile := baseCharacterProfile st;
     editingScene := editingScene st; editedJsonText := editedJsonText st;
     jsonEditError := jsonEditError st; isRegenerating := isRegenerating st;
     completedCount := completedCount st; fileError := e |}.

(** [handleReset] (the write to the file input's DOM value is not state). *)
Definition handleReset (st : AppState) : AppState :=
  setFileError None
    (setCompletedCount (fun _ => 0)
      (setEditingScene None
        (setBaseCharacterProfile None
          (setProgressMessage []
            (setIsProcessing false
              (setFileName []
                (setResults (fun _ => []) st))))))).

(* ================================================================== *)
(** ** Scene parser: the [reader.onload] callback of [handleFileChange] *)

Definition potentialKeys : list jsstring :=
  [lit "scene"; lit "prompt"; lit "description"; lit "text"].

(** [item[key]] for an [item] that is not [null], at one of the keys this
    program reads ([potentialKeys], [character_id], [appearance]): an object
    gives its own property; arrays, strings, numbers and booleans have no
    property of these names. *)
Definition property (item : json) (key : jsstring) : jsval :=
  match item with
  | JObj props => lookup key props
  | _ => None
  end.

(** [typeof v === 'string' && v.trim()], giving [v.trim()] when it holds. *)
Definition trimmedString (v : jsval) : option jsstring :=
  match v with
  | Some (JStr s) => if nonEmpty (trim s) then Some (trim s) else None
  | _ => None
  end.

(** The [for (const key of potentialKeys)] loop with its [break]. *)
Fixpoint firstUsable (item : json) (keys : list jsstring) : option jsstring :=
  match keys with
  | [] => None
  | key :: keys' =>
      match trimmedString (property item key) with
      | Some d => Some d
      | None => firstUsable item keys'
      end
  end.

(** The value of [sceneDescription] when the callback reaches its
    [if (!sceneDescription)]; [None] is [null]. *)
Definition sceneDescriptionOf (item : json) : option jsstring :=
  match item with
  | JStr s => if nonEmpty (trim s) then Some (trim s) else None
  | JObj _ | JArr _ => firstUsable item potentialKeys
  | JNull | JBool _ | JNum _ => None
  end.

Definition itemInvalidMessage (index : nat) : jsstring :=
  lit "Item at index " ++ numberToString index
  ++ lit " is invalid. It must be a non-empty string, or an object with a "
  ++ dquote ++ lit "scene" ++ dquote ++ lit ", "
  ++ dquote ++ lit "prompt" ++ dquote ++ lit ", "
  ++ dquote ++ lit "description" ++ dquote ++ lit ", or "
  ++ dquote ++ lit "text" ++ dquote ++ lit " property.".

Definition newScene (index : nat) (sceneDescription : jsstring) : SceneResult :=
  {| id := index; scene := sceneDescription; jsonPrompt := JNull; image := None;
     status := pending; error_ := None |}.

(** [parsedJson.map((item, index) => ...)]: the callback throws at the first
    entry without a description and the exception leaves [map]. *)
Fixpoint mapItems (index : nat) (items : list json) : outcome (list SceneResult) :=
  match items with
  | [] => Returned []
  | item :: rest =>
      match sceneDescriptionOf item with
      | None => Thrown (Error (itemInvalidMessage index))
      | Some d =>
          match mapItems (S index) rest with
          | Returned rs => Returned (newScene index d :: rs)
          | Thrown e => Thrown e
          end
      end
  end.

(** The body of the [try] after [JSON.parse]. *)
Definition parseScenes (parsedJson : json) : outcome (list SceneResult) :=
  match parsedJson with
  | JArr [] => Thrown (Error (lit "The JSON array cannot be empty."))
  | JArr items => mapItems 0 items
  | _ => Thrown (Error (lit "The root of the JSON file must be an array "
                        ++ backtick ++ lit "[]" ++ backtick ++ lit "."))
  end.

(* ================================================================== *)
(** ** The hosted model behind [ai.models.generateContent] *)

(** The parts of a response the wrappers read.  Every level the library
    types as optional is an [option]; reading through an absent level raises
    a [TypeError]. *)
Record Blob : Type := mkBlob { data : jsstring }.
Record Part : Type := mkPart { inlineData : option Blob }.
Record Content : Type := mkContent { parts : option (list Part) }.
Record Candidate : Type := mkCandidate { content : option Content }.
Record GenerateContentResponse : Type := mkResponse
  { text : option jsstring;
    candidates : option (list Candidate) }.

(** What a request carries: the values the wrappers interpolate into the
    instruction and contents they send. *)
Inductive Request : Type :=
| CharacterJsonRequest (sceneDescription : jsstring) (baseCharacter : option BaseCharacter)
| ImageRequest (prompt : json).

(** Where the engine raises a [TypeError]. *)
Inductive TypeErrorSite : Type :=
| ReadOfNull (prop : jsstring)
| ReadOfUndefined (prop : jsstring)
| NotIterable.

(** What a handler runs in: the live React state, the [let baseCharacter] of
    [handleGenerateAll], and the outbound calls made so far, each with the
    state that is on screen while the call is in flight. *)
Record Env : Type := mkEnv
  { app : AppState;
    baseCharacter : option BaseCharacter;
    inFlight : list (Request * AppState) }.

Definition M (A : Type) : Type := Env -> outcome A * Env.

Definition ret {A} (a : A) : M A := fun env => (Returned a, env).

Definition throw {A} (e : exn) : M A := fun env => (Thrown e, env).

Definition bind {A B} (m : M A) (k : A -> M B) : M B :=
  fun env =>
    match m env with
    | (Returned a, env') => k a env'
    | (Thrown e, env') => (Thrown e, env')
    end.

Declare Scope js_scope.
Delimit Scope js_scope with js.
Notation "x <- m ;; k" := (bind m (fun x => k))
  (at level 61, m at next level, right associativity) : js_scope.
Notation "m ;; k" := (bind m (fun _ => k))
  (at level 61, right associativity) : js_scope.
Open Scope js_scope.

(** [try { body } catch (e) { handler e }] *)
Definition tryCatch {A} (body : M A) (handler : exn -> M A) : M A :=
  fun env =>
    match body env with
    | (Returned a, env') => (Returned a, env')
    | (Thrown e, env') => handler e env'
    end.

(** [try { body } finally { fin }]: [fin] runs on both exits; an exception
    of [fin] replaces the outcome of [body]. *)
Definition tryFinally {A} (body : M A) (fin : M unit) : M A :=
  fun env =>
    match body env with
    | (r, env') =>
        match fin env' with
        | (Returned _, env'') => (r, env'')
        | (Thrown e, env'') => (Thrown e, env'')
        end
    end.

(** A value or exception computed without touching the state. *)
Definition lift {A} (r : outcome A) : M A := fun env => (r, env).

(** A state setter. *)
Definition update (f : AppState -> AppState) : M unit :=
  fun env =>
    (Returned tt,
     {| app := f (app env); baseCharacter := baseCharacter env; inFlight := inFlight env |}).

(** The values a handler closes over: the state of the render it was
    created in, which is the live state when the handler starts. *)
Definition render : M AppState := fun env => (Returned (app env), env).

Definition readBaseCharacter : M (option BaseCharacter) :=
  fun env => (Returned (baseCharacter env), env).

Definition assignBaseCharacter (b : option BaseCharacter) : M unit :=
  fun env =>
    (Returned tt, {| app := app env; baseCharacter := b; inFlight := inFlight env |}).

Section Service.

(** [JSON.parse]. *)
Variable JSON_parse : jsstring -> outcome json.

(** The hosted model: its answer to the [n]-th outbound call, or the
    rejection of the call. *)
Variable ai_models_generateContent : nat -> Request -> outcome GenerateContentResponse.

(** The wording of the engine's [TypeError]s. *)
Variable typeErrorMessage : TypeErrorSite -> jsstring.

(** [ToString] of the values that are not strings. *)
Variable toStringOther : jsval -> jsstring.

(** [await ai.models.generateContent(...)] *)
Definition generateContent (request : Request) : M GenerateContentResponse :=
  fun env =>
    (ai_models_generateContent (List.length (inFlight env)) request,
     {| app := app env; baseCharacter := baseCharacter env;
        inFlight := inFlight env ++ [(request, app env)] |}).

(** [v.prop] where [v] may be [null]. *)
Definition member (v : json) (prop : jsstring) : outcome jsval :=
  match v with
  | JNull => Thrown (Error (typeErrorMessage (ReadOfNull prop)))
  | _ => Returned (property v prop)
  end.

(** A value inside a template literal. *)
Definition interpolate (v : jsval) : jsstring :=
  match v with
  | Some (JStr s) => s
  | _ => toStringOther v
  end.

Definition invalidJsonFormat : exn :=
  Error (lit "The API returned an invalid JSON format.").

(** What [generateCharacterJson] does with the response: [JSON.parse] of its
    text inside the [try], the result cast to [CharacterPrompt] without a
    check.  A response without text makes [JSON.parse(undefined)] throw, as
    text that is not JSON does. *)
Definition parseCharacterJson (response : GenerateContentResponse) : outcome json :=
  match text response with
  | None => Thrown invalidJsonFormat
  | Some jsonText =>
      match JSON_parse jsonText with
      | Returned parsedJson => Returned parsedJson
      | Thrown _ => Thrown invalidJsonFormat
      end
  end.

(** [generateCharacterJson] *)
Definition generateCharacterJson (sceneDescription : jsstring)
    (baseCharacter : option BaseCharacter) : M json :=
  response <- generateContent (CharacterJsonRequest sceneDescription baseCharacter) ;;
  lift (parseCharacterJson response).

(** The [for (const part of ...)] loop of [generateImageFromPrompt] with its
    [return]. *)
Fixpoint firstInlineData (ps : list Part) : option jsstring :=
  match ps with
  | [] => None
  | part :: rest =>
      match inlineData part with
      | Some blob => Some (data blob)
      | None => firstInlineData rest
      end
  end.

(** [response.candidates[0].content.parts] *)
Definition firstCandidateParts (response : GenerateContentResponse) : outcome (list Part) :=
  match candidates response with
  | None => Thrown (Error (typeErrorMessage (ReadOfUndefined (lit "0"))))
  | Some [] => Thrown (Error (typeErrorMessage (ReadOfUndefined (lit "content"))))
  | Some (candidate :: _) =>
      match content candidate with
      | None => Thrown (Error (typeErrorMessage (ReadOfUndefined (lit "parts"))))
      | Some c =>
          match parts c with
          | None => Thrown (Error (typeErrorMessage NotIterable))
          | Some ps => Returned ps
          end
      end
  end.

Definition noImageData : exn :=
  Error (lit "No image data found in the API response.").

(** What [generateImageFromPrompt] does with the response. *)
Definition imageDataOf (response : GenerateContentResponse) : outcome jsstring :=
  match firstCandidateParts response with
  | Thrown e => Thrown e
  | Returned ps =>
      match firstInlineData ps with
      | Some d => Returned d
      | None => Thrown noImageData
      end
  end.

(** [generateImageFromPrompt] *)
Definition generateImageFromPrompt (prompt : json) : M jsstring :=
  response <- generateContent (ImageRequest prompt) ;;
  lift (imageDataOf response).

(* ================================================================== *)
(** ** Batch pipeline: [handleGenerateAll] *)

(** [prev.map(r => r.id === i ? f(r) : r)] *)
Definition mapWhere (i : nat) (f : SceneResult -> SceneResult)
    (prev : list SceneResult) : list SceneResult :=
  map (fun r => if id r =? i then f r else r) prev.

(** [{ ...r, status: 'analyzing' }] *)
Definition toAnalyzing (r : SceneResult) : SceneResult :=
  {| id := id r; scene := scene r; jsonPrompt := jsonPrompt r; image := image r;
     status := analyzing; error_ := error_ r |}.

(** [{ ...r, status: 'generating', jsonPrompt }] *)
Definition toGenerating (prompt : json) (r : SceneResult) : SceneResult :=
  {| id := id r; scene := scene r; jsonPrompt := prompt; image := image r;
     status := generating; error_ := error_ r |}.

Definition dataUrl (imageData : jsstring) : jsstring :=
  lit "data:image/png;base64," ++ imageData.

(** [{ ...r, status: 'complete', jsonPrompt, image: ..., error: null }] *)
Definition toComplete (prompt : json) (imageData : jsstring) (r : SceneResult) : SceneResult :=
  {| id := id r; scene := scene r; jsonPrompt := prompt; image := Some (dataUrl imageData);
     status := complete; error_ := None |}.

(** [{ ...r, status: 'error', error: err.message }] *)
Definition toError (err : exn) (r : SceneResult) : SceneResult :=
  {| id := id r; scene := scene r; jsonPrompt := jsonPrompt r; image := image r;
     status := error; error_ := Some (message err) |}.

Definition processingMessage (i total : nat) (currentScene : SceneResult) : jsstring :=
  lit "Processing scene " ++ numberToString (i + 1) ++ lit " of " ++ numberToString total
  ++ lit ": " ++ dquote ++ scene currentScene ++ dquote.

Definition batchCompleteMessage (total : nat) : jsstring :=
  lit "Batch processing complete. " ++ numberToString total ++ lit " scenes processed.".

(** The [if (i === 0)] block inside the [try]. *)
Definition pinBaseCharacter (i : nat) (prompt : json) : M unit :=
  if i =? 0 then
    cid <- lift (member prompt (lit "character_id")) ;;
    app_ <- lift (member prompt (lit "appearance")) ;;
    assignBaseCharacter (Some {| character_id := cid; appearance := app_ |}) ;;
    update (setBaseCharacterProfile (Some {| character_id := cid; appearance := app_ |}))
  else ret tt.

(** The [try] block of one iteration. *)
Definition tryScene (i : nat) (currentScene : SceneResult) : M unit :=
  update (setResults (mapWhere i toAnalyzing)) ;;
  base <- readBaseCharacter ;;
  prompt <- generateCharacterJson (scene currentScene) base ;;
  pinBaseCharacter i prompt ;;
  update (setResults (mapWhere i (toGenerating prompt))) ;;
  imageData <- generateImageFromPrompt prompt ;;
  update (setResults (mapWhere i (toComplete prompt imageData))).

(** One iteration of the [for] loop ([console.error] leaves no state). *)
Definition processScene (total i : nat) (currentScene : SceneResult) : M unit :=
  update (setProgressMessage (processingMessage i total currentScene)) ;;
  tryFinally
    (tryCatch (tryScene i currentScene)
              (fun err => update (setResults (mapWhere i (toError err)))))
    (update (setCompletedCount S)).

(** [for (let i = ...; i < results.length; i++)] over the [results] the
    handler closed over, [rest] being [results.slice(i)]. *)
Fixpoint forScenes (total i : nat) (rest : list SceneResult) : M unit :=
  match rest with
  | [] => ret tt
  | currentScene :: rest' =>
      processScene total i currentScene ;; forScenes total (S i) rest'
  end.

Definition handleGenerateAll : M unit :=
  st <- render ;;
  if (List.length (results st) =? 0) || isProcessing st then ret tt
  else
    update (setIsProcessing true) ;;
    update (setCompletedCount (fun _ => 0)) ;;
    assignBaseCharacter None ;;
    forScenes (List.length (results st)) 0 (results st) ;;
    update (setProgressMessage (batchCompleteMessage (List.length (results st)))) ;;
    update (setIsProcessing false).

(* ================================================================== *)
(** ** Export: [handleDownloadImage] *)

(** The link the handler builds and clicks. *)
Record DownloadLink : Type := mkLink { href : jsstring; download : jsstring }.

Definition downloadName (result : SceneResult) : jsstring :=
  lit "scene_" ++ interpolate (property (jsonPrompt result) (lit "character_id"))
  ++ lit "_" ++ numberToString (id result + 1) ++ lit ".png".

Definition handleDownloadImage (result : SceneResult) : option DownloadLink :=
  match image result with
  | None => None
  | Some img =>
      if nonEmpty img && truthy (jsonPrompt result)
      then Some {| href := img; download := downloadName result |}
      else None
  end.

(* ================================================================== *)
(** ** Edit and re-run: the edit modal and [handleRegenerate] *)

(** [JSON.stringify(value, null, 2)]. *)
Variable JSON_stringify : json -> jsstring.

Definition handleOpenEditModal (result : SceneResult) : M unit :=
  if truthy (jsonPrompt result) then
    update (setEditingScene (Some result)) ;;
    update (setEditedJsonText (JSON_stringify (jsonPrompt result))) ;;
    update (setJsonEditError None)
  else ret tt.

(** The [onChange] of the modal's text area. *)
Definition handleEditText (value : jsstring) : M unit :=
  update (setEditedJsonText value).

(** [handleCloseEditModal] as created in the render [st]. *)
Definition handleCloseEditModal (st : AppState) : M unit :=
  if isRegenerating st then ret tt
  else
    update (setEditingScene None) ;;
    update (setEditedJsonText []) ;;
    update (setJsonEditError None).

Definition invalidEditMessage : jsstring :=
  lit "Invalid JSON format. Please check for syntax errors.".

(** [{ ...r, status: 'complete', image: ..., error: null }] *)
Definition toRegenerated (imageData : jsstring) (r : SceneResult) : SceneResult :=
  {| id := id r; scene := scene r; jsonPrompt := jsonPrompt r;
     image := Some (dataUrl imageData); status := complete; error_ := None |}.

Definition handleRegenerate : M unit :=
  st <- render ;;
  match editingScene st with
  | None => ret tt
  | Some editing =>
      match JSON_parse (editedJsonText st) with
      | Thrown _ => update (setJsonEditError (Some invalidEditMessage))
      | Returned parsedJson =>
          update (setJsonEditError None) ;;
          update (setIsRegenerating true) ;;
          update (setResults (mapWhere (id editing) (toGenerating parsedJson))) ;;
          handleCloseEditModal st ;;
          tryFinally
            (tryCatch
               (imageData <- generateImageFromPrompt parsedJson ;;
                update (setResults (mapWhere (id editing) (toRegenerated imageData))))
               (fun err => update (setResults (mapWhere (id editing) (toError err)))))
            (update (setIsRegenerating false))
      end
  end.

(* ================================================================== *)
(** ** Upload: [handleFileChange] *)

(** The file the input hands over: its name and the text [readAsText]
    delivers to [reader.onload]. *)
Record File : Type := mkFile { name : jsstring; fileContent : jsstring }.

(** The [reader.onload] callback. *)
Definition reader_onload (file : File) (st : AppState) : AppState :=
  match
    match JSON_parse (fileContent file) with
    | Returned parsedJson => parseScenes parsedJson
    | Thrown e => Thrown e
    end
  with
  | Returned sceneResults => setFileError None (setResults (fun _ => sceneResults) st)
  | Thrown e =>
      setFileError (Some (lit "Error in " ++ name file ++ lit ": " ++ message e))
                   (setResults (fun _ => []) st)
  end.

Definition handleFileChange (files : list File) (st : AppState) : AppState :=
  match files with
  | [] => st
  | file :: _ => reader_onload file (setFileName (name file) (handleReset st))
  end.

End Service.

(* ================================================================== *)
(** * Vocabulary of the specification *)

(** An entry with a usable description, and the description it selects: a
    string whose trimmed text is not empty, or an object holding such a
    string under one of the recognised keys, the keys being consulted in
    priority order. *)
Inductive Usable : json -> jsstring -> Prop :=
| UsableString (s : jsstring) :
    trim s <> [] -> Usable (JStr s) (trim s)
| UsableObject (props : list (jsstring * json)) (before : list jsstring)
    (key : jsstring) (after : list jsstring) (t : jsstring) :
    potentialKeys = before ++ key :: after ->
    lookup key props = Some (JStr t) ->
    trim t <> [] ->
    (forall key', In key' before ->
       forall t', lookup key' props = Some (JStr t') -> trim t' = []) ->
    Usable (JObj props) (trim t).

Definition UsableEntry (entry : json) : Prop := exists d, Usable entry d.

(** The inputs the specification rejects. *)
Inductive Malformed : json -> Prop :=
| NotAList (v : json) : (forall entries, v <> JArr entries) -> Malformed v
| EmptyList : Malformed (JArr [])
| BadEntry (entries : list json) (i : nat) (entry : json) :
    nth_error entries i = Some entry -> ~ UsableEntry entry ->
    Malformed (JArr entries).

(** A recognised key the parser passes over: its value is absent, is not a
    string, or is a string of white space only. *)
Definition Skipped (props : list (jsstring * json)) (key : jsstring) : Prop :=
  lookup key props = None
  \/ (exists v, lookup key props = Some v /\ forall s, v <> JStr s)
  \/ (exists s, lookup key props = Some (JStr s) /\ trim s = []).


(* ================================================================== *)
(** * Vocabulary of a batch run *)

Section RunVocabulary.

Variable JSON_parse : jsstring -> outcome json.
Variable ai_models_generateContent : nat -> Request -> outcome GenerateContentResponse.
Variable typeErrorMessage : TypeErrorSite -> jsstring.

(** What [generateCharacterJson] returns or throws when its call is the
    [c]-th outbound call. *)
Definition promptAnswer (c : nat) (sceneDescription : jsstring)
    (base : option BaseCharacter) : outcome json :=
  match ai_models_generateContent c (CharacterJsonRequest sceneDescription base) with
  | Returned response => parseCharacterJson JSON_parse response
  | Thrown e => Thrown e
  end.

(** What [generateImageFromPrompt] returns or throws when its call is the
    [c]-th outbound call. *)
Definition imageAnswer (c : nat) (prompt : json) : outcome jsstring :=
  match ai_models_generateContent c (ImageRequest prompt) with
  | Returned response => imageDataOf typeErrorMessage response
  | Thrown e => Thrown e
  end.

(** The identity a prompt carries. *)
Definition identityOf (prompt : json) : BaseCharacter :=
  {| character_id := property prompt (lit "character_id");
     appearance := property prompt (lit "appearance") |}.

(** The state on screen while the prompt of item [i] is being synthesized. *)
Definition whileAnalyzing (total i : nat) (cur : SceneResult) (st : AppState) : AppState :=
  setResults (mapWhere i toAnalyzing)
    (setProgressMessage (processingMessage i total cur) st).

(** The state on screen while the image of item [i] is being synthesized
    from [prompt]. *)
Definition whileGenerating (total i : nat) (cur : SceneResult) (prompt : json)
    (st : AppState) : AppState :=
  setResults (mapWhere i (toGenerating prompt))
    (if i =? 0
     then setBaseCharacterProfile (Some (identityOf prompt)) (whileAnalyzing total i cur st)
     else whileAnalyzing total i cur st).

Definition promptCall (total i : nat) (cur : SceneResult) (env : Env) : Request * AppState :=
  (CharacterJsonRequest (scene cur) (baseCharacter env),
   whileAnalyzing total i cur (app env)).

Definition imageCall (total i : nat) (cur : SceneResult) (prompt : json) (env : Env)
  : Request * AppState :=
  (ImageRequest prompt, whileGenerating total i cur prompt (app env)).

(** One iteration of the loop of [handleGenerateAll], by the way it ends. *)
Inductive SceneStep (total i : nat) (cur : SceneResult) (env : Env) : Env -> Prop :=
| SynthesisFailed (err : exn) :
    promptAnswer (List.length (inFlight env)) (scene cur) (baseCharacter env) = Thrown err ->
    SceneStep total i cur env
      {| app := setCompletedCount S
                  (setResults (mapWhere i (toError err))
                     (whileAnalyzing total i cur (app env)));
         baseCharacter := baseCharacter env;
         inFlight := inFlight env ++ [promptCall total i cur env] |}
| PinFailed :
    i = 0 ->
    promptAnswer (List.length (inFlight env)) (scene cur) (baseCharacter env)
      = Returned JNull ->
    SceneStep total i cur env
      {| app := setCompletedCount S
                  (setResults
                     (mapWhere i (toError
                        (Error (typeErrorMessage (ReadOfNull (lit "character_id"))))))
                     (whileAnalyzing total i cur (app env)));
         baseCharacter := baseCharacter env;
         inFlight := inFlight env ++ [promptCall total i cur env] |}
| ImageFailed (prompt : json) (err : exn) :
    promptAnswer (List.length (inFlight env)) (scene cur) (baseCharacter env)
      = Returned prompt ->
    (i = 0 -> prompt <> JNull) ->
    imageAnswer (S (List.length (inFlight env))) prompt = Thrown err ->
    SceneStep total i cur env
      {| app := setCompletedCount S
                  (setResults (mapWhere i (toError err))
                     (whileGenerating total i cur prompt (app env)));
         baseCharacter := if i =? 0 then Some (identityOf prompt) else baseCharacter env;
         inFlight := inFlight env
                     ++ [promptCall total i cur env; imageCall total i cur prompt env] |}
| Completed (prompt : json) (imageData : jsstring) :
    promptAnswer (List.length (inFlight env)) (scene cur) (baseCharacter env)
      = Returned prompt ->
    (i = 0 -> prompt <> JNull) ->
    imageAnswer (S (List.length (inFlight env))) prompt = Returned imageData ->
    SceneStep total i cur env
      {| app := setCompletedCount S
                  (setResults (mapWhere i (toComplete prompt imageData))
                     (whileGenerating total i cur prompt (app env)));
         baseCharacter := if i =? 0 then Some (identityOf prompt) else baseCharacter env;
         inFlight := inFlight env
                     ++ [promptCall total i cur env; imageCall total i cur prompt env] |}.

(** The iterations for the scenes [rest], the first of them at index [i]. *)
Inductive SceneSteps (total : nat) : nat -> list SceneResult -> Env -> Env -> Prop :=
| StepsDone (i : nat) (env : Env) : SceneSteps total i [] env env
| StepsNext (i : nat) (cur : SceneResult) (rest : list SceneResult) (env env1 env2 : Env) :
    SceneStep total i cur env env1 ->
    SceneSteps total (S i) rest env1 env2 ->
    SceneSteps total i (cur :: rest) env env2.

End RunVocabulary.

(** Every item sits at the index its [id] names, as the parser builds the
    batch. *)
Definition IdsAreIndices (rs : list SceneResult) : Prop :=
  forall i r, nth_error rs i = Some r -> id r = i.

Definition terminal (s : SceneStatus) : bool :=
  match s with complete | error => true | _ => false end.

(** The environment in which [handleGenerateAll] enters its loop, and the
    one it leaves behind after the loop. *)
Definition runStart (env : Env) : Env :=
  {| app := setCompletedCount (fun _ => 0) (setIsProcessing true (app env));
     baseCharacter := None;
     inFlight := inFlight env |}.

Definition runFinish (total : nat) (env : Env) : Env :=
  {| app := setIsProcessing false (setProgressMessage (batchCompleteMessage total) (app env));
     baseCharacter := baseCharacter env;
     inFlight := inFlight env |}.

(** The identity item 0 pins, from what its prompt synthesis gave: none when
    the synthesis failed, and none when it returned [null], whose
    [character_id] cannot be read. *)
Definition pinnedIdentity (answer : outcome json) : option BaseCharacter :=
  match answer with
  | Returned JNull => None
  | Returned prompt => Some (identityOf prompt)
  | Thrown _ => None
  end.

Definition isPromptCall (call : Request * AppState) : bool :=
  match fst call with
  | CharacterJsonRequest _ _ => true
  | ImageRequest _ => false
  end.

Definition sceneOfCall (call : Request * AppState) : jsstring :=
  match fst call with
  | CharacterJsonRequest s _ => s
  | ImageRequest _ => []
  end.

Definition inProgress (s : SceneStatus) : bool :=
  match s with analyzing | generating => true | _ => false end.

(** What an observer sees while a call of the run is in flight: the item at
    the position the processed count names is being worked on, and every
    item before it has reached a terminal state. *)
Definition Observed (snap : AppState) : Prop :=
  (exists r, nth_error (results snap) (completedCount snap) = Some r
             /\ inProgress (status r) = true)
  /\ forall j r, j < completedCount snap ->
       nth_error (results snap) j = Some r -> terminal (status r) = true.

Section Contract.

Variable JSON_parse : jsstring -> outcome json.
Variable ai_models_generateContent : nat -> Request -> outcome GenerateContentResponse.

(** The prompt syntheses among the calls of [log] from position [from] on
    all succeed and keep to the synthesizer's contract: asked without an
    identity the synthesizer returns a value whose identity can be read (not
    [null]); asked with an identity it returns a prompt that carries that
    identity's [character_id] and [appearance] unchanged. *)
Definition Honoured (from : nat) (log : list (Request * AppState)) : Prop :=
  forall c s b snap,
    from <= c ->
    nth_error log c = Some (CharacterJsonRequest s b, snap) ->
    exists p,
      promptAnswer JSON_parse ai_models_generateContent c s b = Returned p
      /\ (b = None -> p <> JNull)
      /\ (forall base, b = Some base -> identityOf p = base).

End Contract.

(** ** Vocabulary of the service contracts *)

Definition hasString (v : json) (key : string) : Prop :=
  exists s, property v (lit key) = Some (JStr s).

(** A value of the expected StructuredPrompt shape: all required fields
    present. *)
Definition WellShaped (v : json) : Prop :=
  hasString v "character_id"
  /\ (exists a, property v (lit "appearance") = Some a
                /\ hasString a "gender" /\ hasString a "hair" /\ hasString a "eyes"
                /\ hasString a "clothing" /\ hasString a "age")
  /\ (exists sc, property v (lit "scene") = Some sc
                 /\ hasString sc "context" /\ hasString sc "action")
  /\ hasString v "style".

(** The response carries an image payload somewhere. *)
Definition HasImagePayload (response : GenerateContentResponse) : Prop :=
  exists cands cand c ps part blob,
    candidates response = Some cands /\ In cand cands
    /\ content cand = Some c /\ parts c = Some ps
    /\ In part ps /\ inlineData part = Some blob.

(** The first part of the first candidate that carries inline data carries
    [d]. *)
Definition FirstCandidateImage (response : GenerateContentResponse) (d : jsstring) : Prop :=
  exists cand others c before part after,
    candidates response = Some (cand :: others)
    /\ content cand = Some c
    /\ parts c = Some (before ++ part :: after)
    /\ Forall (fun p => inlineData p = None) before
    /\ inlineData part = Some {| data := d |}.

(** The environment after one more outbound call. *)
Definition called (request : Request) (env : Env) : Env :=
  {| app := app env; baseCharacter := baseCharacter env;
     inFlight := inFlight env ++ [(request, app env)] |}.

(** The state on screen while the image of a re-run is in flight: the edit
    error cleared, the items with the edited id generating from the edited
    prompt, and the modal closed unless the handler was created while a
    re-run was already going on. *)
Definition whileRegenerating (editing : SceneResult) (parsedJson : json)
    (st : AppState) : AppState :=
  (if isRegenerating st then fun st' => st'
   else fun st' => setJsonEditError None (setEditedJsonText [] (setEditingScene None st')))
    (setResults (mapWhere (id editing) (toGenerating parsedJson))
       (setIsRegenerating true (setJsonEditError None st))).

(* ================================================================== *)
(** * Vocabulary of the further properties *)

Section TraceVocabulary.

Variable JSON_parse : jsstring -> outcome json.
Variable ai_models_generateContent : nat -> Request -> outcome GenerateContentResponse.

(** The calls of the iterations for the items [items], the first of them at
    index [i] and its prompt request being the [c]-th outbound call.  Every
    item makes exactly one prompt request, for its own scene text.  When that
    request throws, or when it is item 0's and returns [null], the item makes
    no other call.  Otherwise the item makes one more call, right after it:
    the image request for the very prompt the prompt request returned. *)
Inductive Paired : nat -> nat -> list SceneResult -> list (Request * AppState) -> Prop :=
| PairedDone (i c : nat) : Paired i c [] []
| PairedThrew (i c : nat) (cur : SceneResult) (items : list SceneResult)
    (b : option BaseCharacter) (snap : AppState) (e : exn)
    (rest : list (Request * AppState)) :
    promptAnswer JSON_parse ai_models_generateContent c (scene cur) b = Thrown e ->
    Paired (S i) (S c) items rest ->
    Paired i c (cur :: items) ((CharacterJsonRequest (scene cur) b, snap) :: rest)
| PairedNull (c : nat) (cur : SceneResult) (items : list SceneResult)
    (b : option BaseCharacter) (snap : AppState) (rest : list (Request * AppState)) :
    promptAnswer JSON_parse ai_models_generateContent c (scene cur) b = Returned JNull ->
    Paired 1 (S c) items rest ->
    Paired 0 c (cur :: items) ((CharacterJsonRequest (scene cur) b, snap) :: rest)
| PairedImage (i c : nat) (cur : SceneResult) (items : list SceneResult)
    (b : option BaseCharacter) (snap : AppState) (p : json) (snap' : AppState)
    (rest : list (Request * AppState)) :
    promptAnswer JSON_parse ai_models_generateContent c (scene cur) b = Returned p ->
    (i = 0 -> p <> JNull) ->
    Paired (S i) (S (S c)) items rest ->
    Paired i c (cur :: items)
      ((CharacterJsonRequest (scene cur) b, snap) :: (ImageRequest p, snap') :: rest).

End TraceVocabulary.

(** How a run leaves an item: id and scene kept, and either complete with a
    data URL as image and no error, or in error with a message and the image
    it had. *)
Definition Settled (before after : SceneResult) : Prop :=
  id after = id before /\ scene after = scene before
  /\ ((status after = complete /\ error_ after = None
       /\ exists imageData, image after = Some (dataUrl imageData))
      \/ (status after = error /\ image after = image before
          /\ exists e, error_ after = Some (message e))).

(** The fields of the state that neither a run nor a re-run is about. *)
Definition sameSurroundings (st st' : AppState) : Prop :=
  fileName st' = fileName st /\ fileError st' = fileError st
  /\ map id (results st') = map id (results st)
  /\ map scene (results st') = map scene (results st).

(* ================================================================== *)
(** * Worked inputs *)

(** [JSON.parse] on a finite set of texts: each listed text gets the value
    [JSON.parse] gives it, any other text is rejected. *)
Definition parseTable (table : list (jsstring * json)) (source : jsstring) : outcome json :=
  match lookup source table with
  | Some v => Returned v
  | None => Thrown (Error (lit "Unexpected token"))
  end.

Definition quoted (s : string) : jsstring := dquote ++ lit s ++ dquote.

(** [["a hero walks on the beach", {"scene": " a hero sits by a fire "}]] *)
Definition heroText : jsstring :=
  lit "[" ++ quoted "a hero walks on the beach" ++ lit ", {" ++ quoted "scene"
  ++ lit ": " ++ quoted " a hero sits by a fire " ++ lit "}]".

Definition heroEntries : list json :=
  [JStr (lit "a hero walks on the beach");
   JObj [(lit "scene", JStr (lit " a hero sits by a fire "))]].

(** [[{"foo": "bar"}]] *)
Definition fooText : jsstring :=
  lit "[{" ++ quoted "foo" ++ lit ": " ++ quoted "bar" ++ lit "}]".

Definition fooEntries : list json := [JObj [(lit "foo", JStr (lit "bar"))]].

(** [{"scene": "  ", "prompt": "x"}] *)
Definition blankSceneProps : list (jsstring * json) :=
  [(lit "scene", JStr (lit "  ")); (lit "prompt", JStr (lit "x"))].

Definition uploadTable : list (jsstring * json) :=
  [(heroText, JArr heroEntries); (fooText, JArr fooEntries)].

Definition heroFile : File := {| name := lit "hero.json"; fileContent := heroText |}.
Definition fooFile : File := {| name := lit "foo.json"; fileContent := fooText |}.

(** The text of a number. *)
Definition numberText (z : Z) : jsstring :=
  match z with
  | Z0 => lit "0"
  | Zpos p => numberToString (Pos.to_nat p)
  | Zneg p => lit "-" ++ numberToString (Pos.to_nat p)
  end.

(** [JSON.stringify(v, null, 2)] for values whose strings need no escape;
    [pad] is the indentation of the enclosing line. *)
Fixpoint prettyText (pad : jsstring) (v : json) {struct v} : jsstring :=
  match v with
  | JNull => lit "null"
  | JBool true => lit "true"
  | JBool false => lit "false"
  | JNum z => numberText z
  | JStr s => dquote ++ s ++ dquote
  | JArr [] => lit "[]"
  | JArr (x :: xs) =>
      lit "[" ++ [10%N] ++ (pad ++ lit "  ") ++ prettyText (pad ++ lit "  ") x
      ++ (fix more (l : list json) : jsstring :=
            match l with
            | [] => []
            | y :: l' =>
                lit "," ++ [10%N] ++ (pad ++ lit "  ")
                ++ prettyText (pad ++ lit "  ") y ++ more l'
            end) xs
      ++ [10%N] ++ pad ++ lit "]"
  | JObj [] => lit "{}"
  | JObj ((k, x) :: ps) =>
      lit "{" ++ [10%N] ++ (pad ++ lit "  ") ++ dquote ++ k ++ dquote ++ lit ": "
      ++ prettyText (pad ++ lit "  ") x
      ++ (fix more (l : list (jsstring * json)) : jsstring :=
            match l with
            | [] => []
            | (k', y) :: l' =>
                lit "," ++ [10%N] ++ (pad ++ lit "  ") ++ dquote ++ k' ++ dquote ++ lit ": "
                ++ prettyText (pad ++ lit "  ") y ++ more l'
            end) ps
      ++ [10%N] ++ pad ++ lit "}"
  end.

Definition exampleStringify (v : json) : jsstring := prettyText [] v.

(** [ToString] of the values that are not strings. *)
Fixpoint toStringJson (v : json) : jsstring :=
  match v with
  | JNull => lit "null"
  | JBool true => lit "true"
  | JBool false => lit "false"
  | JNum z => numberText z
  | JStr s => s
  | JArr l =>
      (fix join (l : list json) : jsstring :=
         match l with
         | [] => []
         | [x] => match x with JNull => [] | _ => toStringJson x end
         | x :: l' => match x with JNull => [] | _ => toStringJson x end
                      ++ lit "," ++ join l'
         end) l
  | JObj _ => lit "[object Object]"
  end.

Definition exampleToString (v : jsval) : jsstring :=
  match v with
  | None => lit "undefined"
  | Some j => toStringJson j
  end.

(** The wording of V8. *)
Definition exampleTypeError (site : TypeErrorSite) : jsstring :=
  match site with
  | ReadOfNull prop => lit "Cannot read properties of null (reading '" ++ prop ++ lit "')"
  | ReadOfUndefined prop =>
      lit "Cannot read properties of undefined (reading '" ++ prop ++ lit "')"
  | NotIterable => lit "undefined is not iterable"
  end.

Definition heroAppearance : json :=
  JObj [(lit "gender", JStr (lit "female")); (lit "hair", JStr (lit "long black hair"));
        (lit "eyes", JStr (lit "brown")); (lit "clothing", JStr (lit "white dress"));
        (lit "age", JStr (lit "young adult"))].

Definition promptOf (cid : string) (look : json) (context action : string) : json :=
  JObj [(lit "character_id", JStr (lit cid)); (lit "appearance", look);
        (lit "scene", JObj [(lit "context", JStr (lit context));
                            (lit "action", JStr (lit action))]);
        (lit "style", JStr (lit "cinematic, soft lighting"))].

(** What the synthesizer invents for the first scene. *)
Definition beachPrompt : json := promptOf "hero_01" heroAppearance "beach" "walking".

(** The second scene with the pinned identity echoed. *)
Definition firePrompt : json := promptOf "hero_01" heroAppearance "campfire" "sitting".

(** The second scene from a synthesizer that ignores the identity it was
    given. *)
Definition strayPrompt : json := promptOf "hero_02" heroAppearance "campfire" "sitting".

(** The second scene's prompt after the user renamed the character in the
    editor. *)
Definition editedPrompt : json := promptOf "villain_02" heroAppearance "campfire" "sitting".

Definition exampleTable : list (jsstring * json) :=
  uploadTable
  ++ map (fun v => (exampleStringify v, v))
         [beachPrompt; firePrompt; strayPrompt; editedPrompt; JObj []].

Definition exampleParse : jsstring -> outcome json := parseTable exampleTable.

Definition textResponse (v : json) : GenerateContentResponse :=
  {| text := Some (exampleStringify v);
     candidates := Some [{| content := Some {| parts := Some [{| inlineData := None |}] |} |}] |}.

Definition imageResponse (d : string) : GenerateContentResponse :=
  {| text := None;
     candidates :=
       Some [{| content :=
                  Some {| parts := Some [{| inlineData := Some {| data := lit d |} |}] |} |}] |}.

(** A service that answers every call and echoes the identity it is given:
    asked without an identity it invents [beachPrompt], asked with one it
    answers [firePrompt], which carries the identity of [beachPrompt]. *)
Definition echoingService (n : nat) (request : Request) : outcome GenerateContentResponse :=
  match request with
  | CharacterJsonRequest _ None => Returned (textResponse beachPrompt)
  | CharacterJsonRequest _ (Some _) => Returned (textResponse firePrompt)
  | ImageRequest _ => Returned (imageResponse "iVBORw0KGgo=")
  end.

(** A service that answers every call but invents a new character each
    time. *)
Definition strayingService (n : nat) (request : Request) : outcome GenerateContentResponse :=
  match request with
  | CharacterJsonRequest _ None => Returned (textResponse beachPrompt)
  | CharacterJsonRequest _ (Some _) => Returned (textResponse strayPrompt)
  | ImageRequest _ => Returned (imageResponse "iVBORw0KGgo=")
  end.

(** A service whose text answer is the empty object. *)
Definition emptyObjectService (n : nat) (request : Request) : outcome GenerateContentResponse :=
  match request with
  | CharacterJsonRequest _ _ => Returned (textResponse (JObj []))
  | ImageRequest _ => Returned (imageResponse "iVBORw0KGgo=")
  end.

(** The batch of [heroFile] uploaded into a fresh application. *)
Definition uploaded : Env :=
  {| app := handleFileChange exampleParse [heroFile] initialState;
     baseCharacter := None;
     inFlight := [] |}.

Definition generated (service : nat -> Request -> outcome GenerateContentResponse) : Env :=
  snd (handleGenerateAll exampleParse service exampleTypeError uploaded).

(** After the run, the user opens the editor on the second item and replaces
    the text by that of [editedPrompt]. *)
Definition secondItem (env : Env) : SceneResult :=
  nth 1 (results (app env)) (newScene 0 []).

Definition editing (text_ : jsstring) : Env :=
  snd (handleEditText text_
         (snd (handleOpenEditModal exampleStringify (secondItem (generated echoingService))
                 (generated echoingService)))).

Definition regenerated : Env :=
  snd (handleRegenerate exampleParse echoingService exampleTypeError
         (editing (exampleStringify editedPrompt))).

(** A response whose first candidate carries text only and whose second
    candidate carries an image. *)
Definition imageInSecondCandidate : GenerateContentResponse :=
  {| text := None;
     candidates :=
       Some [{| content := Some {| parts := Some [{| inlineData := None |}] |} |};
             {| content :=
                  Some {| parts := Some [{| inlineData := Some {| data := lit "iVBORw0KGgo=" |} |}] |} |}] |}.

Definition secondCandidateService (n : nat) (request : Request)
  : outcome GenerateContentResponse :=
  match request with
  | CharacterJsonRequest _ _ => Returned (textResponse beachPrompt)
  | ImageRequest _ => Returned imageInSecondCandidate
  end.

(** A response without candidates. *)
Definition noCandidates : GenerateContentResponse := {| text := None; candidates := None |}.

(** A service whose text answer is [null]. *)
Definition nullService (n : nat) (request : Request) : outcome GenerateContentResponse :=
  match request with
  | CharacterJsonRequest _ _ =>
      Returned {| text := Some (lit "null"); candidates := Some [] |}
  | ImageRequest _ => Returned (imageResponse "iVBORw0KGgo=")
  end.

Definition nullParse : jsstring -> outcome json :=
  parseTable ((lit "null", JNull) :: exampleTable).

(** A service that answers the four calls of a first run on two items as
    [echoingService] does and from then on describes another character. *)
Definition renamingService (n : nat) (request : Request) : outcome GenerateContentResponse :=
  if n <? 4 then echoingService n request
  else match request with
       | CharacterJsonRequest _ _ => Returned (textResponse strayPrompt)
       | ImageRequest _ => Returned (imageResponse "iVBORw0KGgo=")
       end.

(** A service that answers the four calls of a first run on two items as
    [echoingService] does and from then on rejects the prompt requests that
    come without an identity. *)
Definition outageService (n : nat) (request : Request) : outcome GenerateContentResponse :=
  if n <? 4 then echoingService n request
  else match request with
       | CharacterJsonRequest _ None => Thrown (Error (lit "503 Service Unavailable"))
       | _ => echoingService n request
       end.

(** Generate All pressed a second time, on the state the first run left and
    with no reset in between. *)
Definition generatedAgain (service : nat -> Request -> outcome GenerateContentResponse) : Env :=
  snd (handleGenerateAll exampleParse service exampleTypeError (generated service)).
(* ================================================================== *)
(** * The scene parser *)

Lemma nonEmpty_true (s : jsstring) : nonEmpty s = true <-> s <> [].
Proof. destruct s; simpl; split; intros; congruence. Qed.

Lemma nonEmpty_false (s : jsstring) : nonEmpty s = false <-> s = [].
Proof. destruct s; simpl; split; intros; congruence. Qed.

Lemma trimmedString_Some (v : jsval) (d : jsstring) :
  trimmedString v = Some d <->
  exists t, v = Some (JStr t) /\ trim t <> [] /\ d = trim t.
Proof.
  unfold trimmedString. split.
  - destruct v as [[ | | | s | | ]|]; try discriminate.
    destruct (nonEmpty (trim s)) eqn:E; try discriminate.
    intros [= <-]. exists s. rewrite nonEmpty_true in E. auto.
  - intros (t & -> & Ht & ->). apply nonEmpty_true in Ht. now rewrite Ht.
Qed.

Lemma trimmedString_None (v : jsval) :
  trimmedString v = None <-> forall t, v = Some (JStr t) -> trim t = [].
Proof.
  unfold trimmedString. split.
  - destruct v as [[ | | | s | | ]|]; try discriminate; intros H t [= ->].
    destruct (nonEmpty (trim t)) eqn:E; try discriminate.
    now apply nonEmpty_false.
  - intros H. destruct v as [[ | | | s | | ]|]; try reflexivity.
    specialize (H s eq_refl). apply nonEmpty_false in H. now rewrite H.
Qed.

Lemma Skipped_trimmedString (props : list (jsstring * json)) (key : jsstring) :
  Skipped props key <-> trimmedString (lookup key props) = None.
Proof.
  rewrite trimmedString_None. unfold Skipped. split.
  - intros [H | [(v & H & Hv) | (s & H & Hs)]] t Ht; rewrite Ht in H.
    + discriminate.
    + injection H as <-. now destruct (Hv t).
    + now injection H as ->.
  - intros H. destruct (lookup key props) as [v|] eqn:E; [|now left].
    destruct v as [ | b | z | s | l | o ];
      try (right; left; eexists; split; [reflexivity | intros s'; discriminate]).
    right; right. exists s. split; [reflexivity | now apply H].
Qed.

(** The loop over the keys returns at the first key, in order, that holds a
    string with text. *)
Lemma firstUsable_Some (item : json) (keys : list jsstring) (d : jsstring) :
  firstUsable item keys = Some d <->
  exists before key after t,
    keys = before ++ key :: after
    /\ property item key = Some (JStr t) /\ trim t <> [] /\ d = trim t
    /\ forall key', In key' before ->
         forall t', property item key' = Some (JStr t') -> trim t' = [].
Proof.
  induction keys as [|k keys IH]; simpl.
  - split; [discriminate|]. intros (before & key & after & t & H & _).
    now destruct before.
  - destruct (trimmedString (property item k)) as [d0|] eqn:E.
    + apply trimmedString_Some in E as (t & Hp & Ht & ->). split.
      * intros [= <-]. exists [], k, keys, t. simpl. intuition.
      * intros (before & key & after & t' & Hk & Hp' & Ht' & -> & Hb).
        destruct before as [|b before]; simpl in Hk; injection Hk as <- ->.
        -- rewrite Hp in Hp'. now injection Hp' as ->.
        -- exfalso. apply Ht. apply (Hb k); simpl; auto.
    + rewrite trimmedString_None in E. rewrite IH. split.
      * intros (before & key & after & t & -> & Hp & Ht & -> & Hb).
        exists (k :: before), key, after, t. simpl. intuition; subst; eauto.
      * intros (before & key & after & t & Hk & Hp & Ht & -> & Hb).
        destruct before as [|b before]; simpl in Hk; injection Hk as <- ->.
        -- exfalso. apply Ht. now apply E.
        -- exists before, key, after, t. intuition. apply (Hb key'); simpl; auto.
Qed.

Lemma firstUsable_array (l : list json) (keys : list jsstring) :
  firstUsable (JArr l) keys = None.
Proof. induction keys; simpl; auto. Qed.

(** The callback selects a description exactly for the usable entries. *)
Lemma sceneDescriptionOf_Usable (entry : json) (d : jsstring) :
  sceneDescriptionOf entry = Some d <-> Usable entry d.
Proof.
  split.
  - destruct entry as [ | b | z | s | l | props ]; unfold sceneDescriptionOf;
      try discriminate.
    + destruct (nonEmpty (trim s)) eqn:E; try discriminate.
      intros [= <-]. constructor. now apply nonEmpty_true.
    + intros H. apply firstUsable_Some in H
        as (before & key & after & t & Hk & Hp & Ht & -> & Hb).
      now apply UsableObject with before key after.
  - intros [s Hs | props before key after t Hk Hp Ht Hb]; unfold sceneDescriptionOf.
    + apply nonEmpty_true in Hs. now rewrite Hs.
    + apply firstUsable_Some. exists before, key, after, t. simpl. auto.
Qed.

Lemma sceneDescriptionOf_None (entry : json) :
  sceneDescriptionOf entry = None <-> ~ UsableEntry entry.
Proof.
  split.
  - intros H [d Hd]. apply sceneDescriptionOf_Usable in Hd. congruence.
  - intros H. destruct (sceneDescriptionOf entry) as [d|] eqn:E; auto.
    destruct H. exists d. now apply sceneDescriptionOf_Usable.
Qed.

Lemma mapItems_usable (entries : list json) :
  forall (descs : list jsstring) (i : nat),
    Forall2 Usable entries descs ->
    exists rs, mapItems i entries = Returned rs
      /\ List.length rs = List.length entries
      /\ forall j d, nth_error descs j = Some d ->
           nth_error rs j = Some (newScene (i + j) d).
Proof.
  induction entries as [|e entries IH]; intros descs i H; inversion H; subst; simpl.
  - exists []. repeat split; auto. intros [|j] d; discriminate.
  - match goal with Hu : Usable e _ |- _ => apply sceneDescriptionOf_Usable in Hu; rewrite Hu end.
    match goal with Hf : Forall2 _ entries _ |- _ =>
      destruct (IH _ (S i) Hf) as (rs & -> & Hlen & Hnth) end.
    eexists. split; [reflexivity|]. split; [simpl; congruence|].
    intros [|j] d; simpl.
    + intros [= ->]. now rewrite Nat.add_0_r.
    + intros Hd. rewrite (Hnth _ _ Hd). do 2 f_equal. lia.
Qed.

(** [map] stops at the first entry without a description. *)
Lemma mapItems_unusable (entries : list json) :
  forall (i j0 : nat) (bad : json),
    nth_error entries j0 = Some bad -> ~ UsableEntry bad ->
    exists j e,
      nth_error entries j = Some e /\ ~ UsableEntry e
      /\ (forall k e', k < j -> nth_error entries k = Some e' -> UsableEntry e')
      /\ mapItems i entries = Thrown (Error (itemInvalidMessage (i + j))).
Proof.
  induction entries as [|e entries IH]; intros i j0 bad Hnth Hbad.
  - destruct j0; discriminate.
  - simpl. destruct (sceneDescriptionOf e) as [d|] eqn:E.
    + destruct j0 as [|j0]; simpl in Hnth.
      * injection Hnth as ->. apply sceneDescriptionOf_None in Hbad. congruence.
      * destruct (IH (S i) j0 bad Hnth Hbad) as (j & e' & Hj & Hu & Hfirst & ->).
        exists (S j), e'. repeat split; auto.
        -- intros [|k] e'' Hk; simpl.
           ++ intros [= <-]. exists d. now apply sceneDescriptionOf_Usable.
           ++ apply Hfirst. lia.
        -- do 3 f_equal. lia.
    + exists 0, e. rewrite Nat.add_0_r. repeat split; auto.
      * now apply sceneDescriptionOf_None.
      * intros k e' Hk. lia.
Qed.

Lemma digits_inj (u : Decimal.uint) :
  forall v, digits u = digits v -> u = v.
Proof.
  induction u; intros v H; destruct v; simpl in H;
    try discriminate; try reflexivity;
    injection H as H; f_equal; auto.
Qed.

Lemma numberToString_inj (i j : nat) :
  numberToString i = numberToString j -> i = j.
Proof.
  unfold numberToString. intros H. apply digits_inj in H.
  rewrite <- (DecimalNat.Unsigned.of_to i), <- (DecimalNat.Unsigned.of_to j).
  now rewrite H.
Qed.

(** The message names its index: two indices never share a message. *)
Lemma itemInvalidMessage_inj (i j : nat) :
  itemInvalidMessage i = itemInvalidMessage j -> i = j.
Proof.
  unfold itemInvalidMessage. intros H.
  apply app_inv_head in H. apply app_inv_tail in H.
  now apply numberToString_inj.
Qed.

Section ParserProperties.

Variable JSON_parse : jsstring -> outcome json.

(** C3. A non-empty list whose entries are all usable (a string with
    non-empty trimmed text, or an object holding one under the first of
    scene, prompt, description, text that has one) parses: the handler stores
    exactly one item per entry, in input order, the item at index [i] having
    id [i], the trimmed selected text as its scene, status pending and no
    prompt, image or error; no file error is reported. *)
Theorem parse_valid_batch (file : File) (st : AppState)
    (entries : list json) (descs : list jsstring) :
  JSON_parse (fileContent file) = Returned (JArr entries) ->
  entries <> [] ->
  Forall2 Usable entries descs ->
  parseScenes (JArr entries) = Returned (results (handleFileChange JSON_parse [file] st))
  /\ fileError (handleFileChange JSON_parse [file] st) = None
  /\ List.length (results (handleFileChange JSON_parse [file] st)) = List.length entries
  /\ forall i d, nth_error descs i = Some d ->
       nth_error (results (handleFileChange JSON_parse [file] st)) i
       = Some {| id := i; scene := d; jsonPrompt := JNull; image := None;
                 status := pending; error_ := None |}.
Proof.
  intros Hparse Hne Hall.
  destruct (mapItems_usable 0 Hall) as (rs & Hmap & Hlen & Hnth).
  assert (Hscenes : parseScenes (JArr entries) = Returned rs).
  { destruct entries; [congruence | exact Hmap]. }
  unfold handleFileChange, reader_onload. rewrite Hparse, Hscenes. simpl.
  repeat split; auto.
Qed.

(** C4. When the parsed input is not a list, is the empty list, or has an
    entry that is not usable, parsing throws, the handler stores no item at
    all and reports a file error; for a non-empty list the message is the one
    of the first index whose entry is not usable. *)
Theorem parse_malformed_rejected (file : File) (st : AppState) (parsed : json) :
  JSON_parse (fileContent file) = Returned parsed ->
  Malformed parsed ->
  results (handleFileChange JSON_parse [file] st) = []
  /\ exists e,
       parseScenes parsed = Thrown e
       /\ fileError (handleFileChange JSON_parse [file] st)
          = Some (lit "Error in " ++ name file ++ lit ": " ++ message e)
       /\ forall entries, parsed = JArr entries -> entries <> [] ->
            exists j bad,
              nth_error entries j = Some bad /\ ~ UsableEntry bad
              /\ (forall k e', k < j -> nth_error entries k = Some e' -> UsableEntry e')
              /\ message e = itemInvalidMessage j.
Proof.
  intros Hparse Hbad.
  assert (Hthrow : exists e, parseScenes parsed = Thrown e
            /\ forall entries, parsed = JArr entries -> entries <> [] ->
                 exists j bad,
                   nth_error entries j = Some bad /\ ~ UsableEntry bad
                   /\ (forall k e', k < j -> nth_error entries k = Some e' -> UsableEntry e')
                   /\ message e = itemInvalidMessage j).
  { destruct Hbad as [v Hv | | entries i entry Hnth Hun].
    - destruct v; try (eexists; split; [reflexivity | intros; discriminate]).
      now destruct (Hv elements).
    - eexists; split; [reflexivity|]. intros entries [= <-] H. now destruct H.
    - destruct (mapItems_unusable entries 0 i Hnth Hun) as (j & bad & Hj & Hu & Hfirst & Hmap).
      exists (Error (itemInvalidMessage j)). split.
      + destruct entries; [destruct i; discriminate | exact Hmap].
      + intros entries' [= <-] _. exists j, bad. auto. }
  destruct Hthrow as (e & He & Hidx).
  unfold handleFileChange, reader_onload. rewrite Hparse, He. simpl.
  split; [reflexivity|]. exists e. auto.
Qed.

End ParserProperties.

(** C10. In an object entry a recognised key whose value is absent, is not a
    string or is white space only is passed over and the next key in priority
    order is consulted; the entry is rejected exactly when none of the four
    keys holds a string with text.  The entry with a blank scene and the
    prompt x parses to x. *)
Theorem skipped_key_falls_through (props : list (jsstring * json)) :
  (forall key keys, Skipped props key ->
     firstUsable (JObj props) (key :: keys) = firstUsable (JObj props) keys)
  /\ (forall key keys t, lookup key props = Some (JStr t) -> trim t <> [] ->
        firstUsable (JObj props) (key :: keys) = Some (trim t))
  /\ (sceneDescriptionOf (JObj props) = None <->
      forall key, In key potentialKeys -> Skipped props key)
  /\ sceneDescriptionOf (JObj blankSceneProps) = Some (lit "x")
  /\ parseScenes (JArr [JObj blankSceneProps]) = Returned [newScene 0 (lit "x")].
Proof.
  split; [|split; [|split; [|split]]].
  - intros key keys H. apply Skipped_trimmedString in H.
    cbn [firstUsable property]. now rewrite H.
  - intros key keys t H Ht. cbn [firstUsable property]. rewrite H.
    unfold trimmedString. apply nonEmpty_true in Ht. now rewrite Ht.
  - unfold sceneDescriptionOf, potentialKeys.
    split.
    + intros H key Hin. apply Skipped_trimmedString.
      cbn [firstUsable property] in H. cbn [In] in Hin.
      repeat match type of H with
             | match ?x with _ => _ end = None => destruct x eqn:?; [discriminate|]
             end.
      intuition; subst; assumption.
    + intros H. cbn [firstUsable property].
      repeat match goal with
             | |- match trimmedString (lookup ?k props) with _ => _ end = None =>
                 rewrite (proj1 (Skipped_trimmedString props k)) by (apply H; simpl; auto)
             end.
      reflexivity.
  - reflexivity.
  - reflexivity.
Qed.

(** ** What the parser guarantees beyond acceptance *)

Lemma trimStart_suffix (s : jsstring) :
  exists w, s = w ++ trimStart s /\ Forall (fun c => isWhiteSpace c = true) w.
Proof.
  induction s as [|c s (w & Hs & Hw)]; simpl.
  - exists []. split; [reflexivity | constructor].
  - destruct (isWhiteSpace c) eqn:E.
    + exists (c :: w). split; [simpl; congruence | now constructor].
    + exists []. split; [reflexivity | constructor].
Qed.

Lemma trimStart_head (s : jsstring) (c : N) (t : jsstring) :
  trimStart s = c :: t -> isWhiteSpace c = false.
Proof.
  induction s as [|c' s IH]; simpl; [discriminate|].
  destruct (isWhiteSpace c') eqn:E; [exact IH|]. now intros [= <- _].
Qed.

Lemma trimStart_fixed (c : N) (t : jsstring) :
  isWhiteSpace c = false -> trimStart (c :: t) = c :: t.
Proof. intros H. simpl. now rewrite H. Qed.

Lemma trimEnd_prefix (s : jsstring) :
  exists w, s = trimEnd s ++ w /\ Forall (fun c => isWhiteSpace c = true) w.
Proof.
  destruct (trimStart_suffix (rev s)) as (w & Hs & Hw).
  exists (rev w). split.
  - unfold trimEnd. rewrite <- rev_app_distr, <- Hs. now rewrite rev_involutive.
  - now apply Forall_rev.
Qed.

Lemma trimEnd_last (s t : jsstring) (c : N) :
  trimEnd s = t ++ [c] -> isWhiteSpace c = false.
Proof.
  unfold trimEnd. intros H. apply (f_equal (@rev N)) in H.
  rewrite rev_involutive, rev_app_distr in H. simpl in H.
  eapply trimStart_head. exact H.
Qed.

(** [trim] cuts white space off both ends and nothing else; what is left
    neither starts nor ends with white space. *)
Lemma trim_spec (s : jsstring) :
  (exists l r, s = l ++ trim s ++ r
               /\ Forall (fun c => isWhiteSpace c = true) l
               /\ Forall (fun c => isWhiteSpace c = true) r)
  /\ (forall c t, trim s = c :: t -> isWhiteSpace c = false)
  /\ (forall t c, trim s = t ++ [c] -> isWhiteSpace c = false).
Proof.
  destruct (trimStart_suffix s) as (l & Hl & Hlw).
  destruct (trimEnd_prefix (trimStart s)) as (r & Hr & Hrw).
  split; [|split].
  - exists l, r. unfold trim. rewrite <- Hr. auto.
  - intros c t H. unfold trim in H. rewrite H in Hr. simpl in Hr.
    eapply trimStart_head. exact Hr.
  - intros t c H. eapply trimEnd_last. exact H.
Qed.

Lemma trim_fixed (d : jsstring) :
  d <> [] ->
  (forall c t, d = c :: t -> isWhiteSpace c = false) ->
  (forall t c, d = t ++ [c] -> isWhiteSpace c = false) ->
  trim d = d.
Proof.
  intros Hne Hhead Hlast. unfold trim.
  destruct d as [|c t]; [congruence|].
  rewrite (@trimStart_fixed c t (Hhead c t eq_refl)).
  unfold trimEnd.
  destruct (rev (c :: t)) as [|c' t'] eqn:E.
  - apply (f_equal (@rev N)) in E. rewrite rev_involutive in E. discriminate.
  - assert (Hd : c :: t = rev t' ++ [c']).
    { apply (f_equal (@rev N)) in E. now rewrite rev_involutive in E. }
    rewrite (@trimStart_fixed c' t' (Hlast _ _ Hd)). simpl. now rewrite <- Hd.
Qed.

Lemma mapItems_Returned (entries : list json) :
  forall (i : nat) (rs : list SceneResult),
    mapItems i entries = Returned rs ->
    Forall2 (fun entry r => Usable entry (scene r)) entries rs
    /\ forall j r, nth_error rs j = Some r -> r = newScene (i + j) (scene r).
Proof.
  induction entries as [|e entries IH]; intros i rs; simpl.
  - intros [= <-]. split; [constructor | intros [|j] r; discriminate].
  - destruct (sceneDescriptionOf e) as [d|] eqn:E; [|discriminate].
    destruct (mapItems (S i) entries) as [rs'|] eqn:E'; [|discriminate].
    intros [= <-]. destruct (IH _ _ E') as [Hall Hnth]. split.
    + constructor; [now apply sceneDescriptionOf_Usable | exact Hall].
    + intros [|j] r; simpl.
      * intros [= <-]. now rewrite Nat.add_0_r.
      * intros Hr. rewrite (Hnth _ _ Hr) at 1. simpl. do 2 f_equal. lia.
Qed.

Lemma parseScenes_Returned (parsed : json) (rs : list SceneResult) :
  parseScenes parsed = Returned rs ->
  exists entries,
    parsed = JArr entries /\ entries <> []
    /\ Forall2 (fun entry r => Usable entry (scene r)) entries rs
    /\ forall j r, nth_error rs j = Some r -> r = newScene j (scene r).
Proof.
  destruct parsed as [ | | | | entries | ]; try discriminate.
  destruct entries as [|e entries]; [discriminate|].
  intros H. destruct (@mapItems_Returned _ _ _ H) as [Hall Hnth].
  exists (e :: entries). split; [reflexivity|]. split; [discriminate|]. split; [exact Hall|].
  intros j r Hr. exact (Hnth j r Hr).
Qed.

(** Acceptance is exact: when parsing succeeds the input was a non-empty
    list, every entry was usable and gave the item at its position, whose
    scene is the description the entry selects and which is pending with its
    index as id and no prompt, image or error. *)
Theorem parse_success_means_valid (parsed : json) (rs : list SceneResult) :
  parseScenes parsed = Returned rs ->
  exists entries,
    parsed = JArr entries /\ entries <> []
    /\ Forall2 (fun entry r => Usable entry (scene r)) entries rs
    /\ forall j r, nth_error rs j = Some r ->
         r = {| id := j; scene := scene r; jsonPrompt := JNull; image := None;
                status := pending; error_ := None |}.
Proof. exact (@parseScenes_Returned parsed rs). Qed.

Lemma Usable_trimmed (entry : json) (d : jsstring) :
  Usable entry d ->
  d <> []
  /\ (forall c t, d = c :: t -> isWhiteSpace c = false)
  /\ (forall t c, d = t ++ [c] -> isWhiteSpace c = false).
Proof.
  intros [s Hs | props before key after t _ _ Ht _].
  - split; [exact Hs|]. exact (proj2 (trim_spec s)).
  - split; [exact Ht|]. exact (proj2 (trim_spec t)).
Qed.

(** Every scene text the parser stores is non-empty and neither starts nor
    ends with a white-space character. *)
Theorem parsed_scenes_are_trimmed (parsed : json) (rs : list SceneResult) (r : SceneResult) :
  parseScenes parsed = Returned rs ->
  In r rs ->
  scene r <> []
  /\ (forall c t, scene r = c :: t -> isWhiteSpace c = false)
  /\ (forall t c, scene r = t ++ [c] -> isWhiteSpace c = false).
Proof.
  intros Hparse Hin.
  destruct (@parseScenes_Returned parsed rs Hparse) as (entries & _ & _ & Hall & _).
  clear Hparse. induction Hall as [|e r' entries rs He _ IH]; [destruct Hin|].
  destruct Hin as [<- | Hin]; [exact (@Usable_trimmed _ _ He) | exact (IH Hin)].
Qed.

Lemma mapItems_of_scenes (rs : list SceneResult) :
  forall i,
    (forall j r, nth_error rs j = Some r -> r = newScene (i + j) (scene r)) ->
    (forall r, In r rs -> trim (scene r) = scene r /\ scene r <> []) ->
    mapItems i (map (fun r => JStr (scene r)) rs) = Returned rs.
Proof.
  induction rs as [|r rs IH]; intros i Hnth Htrim; simpl; [reflexivity|].
  destruct (Htrim r (or_introl eq_refl)) as [Ht Hne].
  rewrite Ht. apply nonEmpty_true in Hne. rewrite Hne.
  rewrite IH.
  - f_equal. f_equal. specialize (Hnth 0 r eq_refl). now rewrite Nat.add_0_r in Hnth.
  - intros j r' Hr'. specialize (Hnth (S j) r' Hr'). now rewrite Nat.add_succ_r in Hnth.
  - intros r' Hin. apply Htrim. now right.
Qed.

(** Parsing is stable: the scene texts of an accepted batch, uploaded again
    as a plain list of strings, give the same batch. *)
Theorem reparse_gives_same_batch (parsed : json) (rs : list SceneResult) :
  parseScenes parsed = Returned rs ->
  parseScenes (JArr (map (fun r => JStr (scene r)) rs)) = Returned rs.
Proof.
  intros Hparse.
  destruct (@parseScenes_Returned parsed rs Hparse) as (entries & _ & Hne & Hall & Hnth).
  assert (Hrs : rs <> []) by (destruct Hall; [congruence | discriminate]).
  assert (Hmap : mapItems 0 (map (fun r => JStr (scene r)) rs) = Returned rs).
  { apply mapItems_of_scenes; [exact Hnth|].
    intros r Hin. clear Hnth Hne Hrs Hparse.
    induction Hall as [|e r' entries rs He _ IH]; [destruct Hin|].
    destruct Hin as [<- | Hin]; [|exact (IH Hin)].
    destruct (@Usable_trimmed _ _ He) as (Hn & Hh & Hl). split; [|exact Hn].
    now apply trim_fixed. }
  destruct rs as [|r rs]; [congruence|]. exact Hmap.
Qed.

(** The rejection message names its index: two indices never share a
    message. *)
Theorem rejection_message_names_index (i j : nat) :
  itemInvalidMessage i = itemInvalidMessage j <-> i = j.
Proof.
  split; [|now intros ->].
  unfold itemInvalidMessage. intros H.
  apply app_inv_head in H. apply app_inv_tail in H.
  now apply numberToString_inj.
Qed.

Section UploadProperties.

Variable JSON_parse : jsstring -> outcome json.

(** Once the text of the file has been read, an upload replaces the batch
    wholesale.  Whatever was on screen before, the name shown is the file's,
    no run is marked in progress, the progress message, the pinned profile
    and the processed count are cleared and the editor holds no item; the
    text of the editor, its error and the re-run flag are left as they were,
    [handleReset] not touching them.  Then either the file is accepted, with
    a non-empty batch and no file error, or it is rejected, with no item at
    all and a file error that starts with the file's name and carries the
    message of what failed ([JSON.parse] or the validation).  The batch and
    the error do not depend on the previous state. *)
Theorem upload_replaces_batch (file : File) (st st0 : AppState) :
  fileName (handleFileChange JSON_parse [file] st) = name file
  /\ isProcessing (handleFileChange JSON_parse [file] st) = false
  /\ progressMessage (handleFileChange JSON_parse [file] st) = []
  /\ baseCharacterProfile (handleFileChange JSON_parse [file] st) = None
  /\ completedCount (handleFileChange JSON_parse [file] st) = 0
  /\ editingScene (handleFileChange JSON_parse [file] st) = None
  /\ editedJsonText (handleFileChange JSON_parse [file] st) = editedJsonText st
  /\ jsonEditError (handleFileChange JSON_parse [file] st) = jsonEditError st
  /\ isRegenerating (handleFileChange JSON_parse [file] st) = isRegenerating st
  /\ results (handleFileChange JSON_parse [file] st)
     = results (handleFileChange JSON_parse [file] st0)
  /\ fileError (handleFileChange JSON_parse [file] st)
     = fileError (handleFileChange JSON_parse [file] st0)
  /\ ((fileError (handleFileChange JSON_parse [file] st) = None
       /\ results (handleFileChange JSON_parse [file] st) <> []
       /\ exists parsed, JSON_parse (fileContent file) = Returned parsed
            /\ parseScenes parsed = Returned (results (handleFileChange JSON_parse [file] st)))
      \/ (results (handleFileChange JSON_parse [file] st) = []
          /\ exists e,
               fileError (handleFileChange JSON_parse [file] st)
               = Some (lit "Error in " ++ name file ++ lit ": " ++ message e)
               /\ (JSON_parse (fileContent file) = Thrown e
                   \/ exists parsed, JSON_parse (fileContent file) = Returned parsed
                        /\ parseScenes parsed = Thrown e))).
Proof.
  unfold handleFileChange, reader_onload.
  destruct (JSON_parse (fileContent file)) as [parsed|e] eqn:Hp.
  - destruct (parseScenes parsed) as [rs|e] eqn:Hs; cbn; repeat split.
    + left. split; [reflexivity|]. split.
      * destruct (@parseScenes_Returned parsed rs Hs) as (entries & _ & Hne & Hall & _).
        destruct Hall; [congruence | discriminate].
      * exists parsed. auto.
    + right. split; [reflexivity|]. exists e. split; [reflexivity|]. right. eauto.
  - cbn. repeat split. right. split; [reflexivity|]. exists e. auto.
Qed.

End UploadProperties.

(* ================================================================== *)
(** * The batch pipeline *)

Section PipelineProperties.

Variable JSON_parse : jsstring -> outcome json.
Variable ai : nat -> Request -> outcome GenerateContentResponse.
Variable typeErrorMessage : TypeErrorSite -> jsstring.

Local Abbreviation prompt_answer := (promptAnswer JSON_parse ai).
Local Abbreviation image_answer := (imageAnswer ai typeErrorMessage).
Local Abbreviation scene_step := (SceneStep JSON_parse ai typeErrorMessage).
Local Abbreviation scene_steps := (SceneSteps JSON_parse ai typeErrorMessage).
Local Abbreviation process_scene := (processScene JSON_parse ai typeErrorMessage).
Local Abbreviation for_scenes := (forScenes JSON_parse ai typeErrorMessage).
Local Abbreviation generate_all := (handleGenerateAll JSON_parse ai typeErrorMessage).
Local Abbreviation regenerate := (handleRegenerate JSON_parse ai typeErrorMessage).

Create HintDb js discriminated.
#[local] Hint Unfold tryFinally tryCatch bind ret throw lift update render
  readBaseCharacter assignBaseCharacter generateContent generateCharacterJson
  generateImageFromPrompt pinBaseCharacter tryScene : js.

(** Symbolic execution of a handler: expose the state transformer and
    reduce the projections of the states it builds. *)
Ltac run := repeat autounfold with js; cbn [app baseCharacter inFlight fst snd].

Lemma length_snoc {A} (l : list A) (x : A) : List.length (l ++ [x]) = S (List.length l).
Proof. rewrite length_app. simpl. lia. Qed.

(** An iteration always returns, and does so in one of the four ways. *)
Lemma processScene_step (total i : nat) (cur : SceneResult) (env : Env) :
  exists env', process_scene total i cur env = (Returned tt, env')
               /\ scene_step total i cur env env'.
Proof.
  unfold processScene. run.
  destruct (prompt_answer (List.length (inFlight env)) (scene cur) (baseCharacter env))
    as [prompt|err] eqn:Hp.
  all: pose proof Hp as Hp'; unfold promptAnswer in Hp'.
  all: destruct (ai (List.length (inFlight env))
                    (CharacterJsonRequest (scene cur) (baseCharacter env)))
         as [response|err0]; rewrite ?Hp'.
  all: try discriminate.
  3: { injection Hp' as <-. eexists; split; [reflexivity|].
       exact (@SynthesisFailed JSON_parse ai typeErrorMessage total i cur env _ Hp). }
  2: { eexists; split; [reflexivity|].
       exact (@SynthesisFailed JSON_parse ai typeErrorMessage total i cur env _ Hp). }
  assert (Himage : forall c,
            (exists d, image_answer c prompt = Returned d
                       /\ match ai c (ImageRequest prompt) with
                          | Returned r => imageDataOf typeErrorMessage r
                          | Thrown e => Thrown e
                          end = Returned d)
            \/ (exists e, image_answer c prompt = Thrown e
                       /\ match ai c (ImageRequest prompt) with
                          | Returned r => imageDataOf typeErrorMessage r
                          | Thrown e => Thrown e
                          end = Thrown e)).
  { intros c. unfold imageAnswer.
    destruct (match ai c (ImageRequest prompt) with
              | Returned r => imageDataOf typeErrorMessage r
              | Thrown e => Thrown e
              end); eauto. }
  destruct (Nat.eqb_spec i 0) as [->|Hi].
  - destruct (match prompt with JNull => true | _ => false end) eqn:Hnull.
    + destruct prompt; try discriminate.
      eexists; split; [reflexivity|]. exact (@PinFailed JSON_parse ai typeErrorMessage total 0 cur env eq_refl Hp).
    + assert (Hnn : 0 = 0 -> prompt <> JNull) by (intros _ ->; discriminate).
      assert (Hm : forall k, member typeErrorMessage prompt k = Returned (property prompt k))
        by (destruct prompt; try discriminate; reflexivity).
      rewrite !Hm. run. rewrite length_snoc.
      destruct (Himage (S (List.length (inFlight env)))) as [(d & Hd & Hd') | (e & He & He')].
      * destruct (ai (S (List.length (inFlight env))) (ImageRequest prompt));
          [rewrite Hd' | discriminate]; eexists; (split; [reflexivity|]); cbn [app baseCharacter inFlight]; rewrite <- app_assoc; cbn [List.app];
          exact (@Completed JSON_parse ai typeErrorMessage total 0 cur env _ _ Hp Hnn Hd).
      * destruct (ai (S (List.length (inFlight env))) (ImageRequest prompt));
          [rewrite He' | injection He' as ->]; eexists; (split; [reflexivity|]); cbn [app baseCharacter inFlight]; rewrite <- app_assoc; cbn [List.app];
          exact (@ImageFailed JSON_parse ai typeErrorMessage total 0 cur env _ _ Hp Hnn He).
  - assert (Hnn : i = 0 -> prompt <> JNull) by (intros ->; now destruct Hi).
    run. rewrite length_snoc.
    pose proof (@Completed JSON_parse ai typeErrorMessage total i cur env prompt) as HC.
    pose proof (@ImageFailed JSON_parse ai typeErrorMessage total i cur env prompt) as HF.
    unfold whileGenerating, imageCall, whileGenerating in HC, HF.
    apply Nat.eqb_neq in Hi. rewrite Hi in HC, HF.
    destruct (Himage (S (List.length (inFlight env)))) as [(d & Hd & Hd') | (e & He & He')].
    + destruct (ai (S (List.length (inFlight env))) (ImageRequest prompt));
        [rewrite Hd' | discriminate]; eexists; (split; [reflexivity|]); cbn [app baseCharacter inFlight]; rewrite <- app_assoc; cbn [List.app];
        exact (HC d Hp Hnn Hd).
    + destruct (ai (S (List.length (inFlight env))) (ImageRequest prompt));
        [rewrite He' | injection He' as ->]; eexists; (split; [reflexivity|]); cbn [app baseCharacter inFlight]; rewrite <- app_assoc; cbn [List.app];
        exact (HF _ Hp Hnn He).
Qed.


(** The loop never stops early: it returns after one iteration per scene. *)
Lemma forScenes_steps (total : nat) (rest : list SceneResult) :
  forall (i : nat) (env : Env),
    exists env', for_scenes total i rest env = (Returned tt, env')
                 /\ scene_steps total i rest env env'.
Proof.
  induction rest as [|cur rest IH]; intros i env; cbn [forScenes].
  - exists env. split; [reflexivity | constructor].
  - destruct (processScene_step total i cur env) as (env1 & Hrun & Hstep).
    destruct (IH (S i) env1) as (env2 & Hrest & Hsteps).
    exists env2. split.
    + unfold bind. now rewrite Hrun.
    + now apply StepsNext with env1.
Qed.

(** A run on a non-empty batch that is not being processed already. *)
Lemma handleGenerateAll_runs (env : Env) :
  results (app env) <> [] ->
  isProcessing (app env) = false ->
  exists env',
    scene_steps (List.length (results (app env))) 0 (results (app env)) (runStart env) env'
    /\ generate_all env = (Returned tt, runFinish (List.length (results (app env))) env').
Proof.
  intros Hne Hproc.
  destruct (forScenes_steps (List.length (results (app env))) (results (app env)) 0 (runStart env))
    as (env' & Hrun & Hsteps).
  exists env'. split; [exact Hsteps|].
  unfold handleGenerateAll. run. rewrite Hproc.
  destruct (results (app env)) as [|r rs] eqn:Hrs; [congruence|].
  cbn [List.length Nat.eqb orb]. run.
  unfold runStart in Hrun. cbn [List.length] in Hrun.
  rewrite Hrun. reflexivity.
Qed.

(** A guarded call does nothing. *)
Lemma handleGenerateAll_guard (env : Env) :
  results (app env) = [] \/ isProcessing (app env) = true ->
  generate_all env = (Returned tt, env).
Proof.
  intros H. unfold handleGenerateAll. run.
  destruct H as [-> | ->]; [reflexivity|].
  now rewrite orb_true_r.
Qed.

(** ** Updates of one item *)

Lemma mapWhere_length (i : nat) (f : SceneResult -> SceneResult) (l : list SceneResult) :
  List.length (mapWhere i f l) = List.length l.
Proof. apply length_map. Qed.

Lemma nth_error_mapWhere (i : nat) (f : SceneResult -> SceneResult)
    (l : list SceneResult) (j : nat) :
  nth_error (mapWhere i f l) j
  = option_map (fun r => if id r =? i then f r else r) (nth_error l j).
Proof. apply nth_error_map. Qed.

Lemma mapWhere_other (i : nat) (f : SceneResult -> SceneResult)
    (l : list SceneResult) (j : nat) :
  IdsAreIndices l -> j <> i -> nth_error (mapWhere i f l) j = nth_error l j.
Proof.
  intros Hid Hj. rewrite nth_error_mapWhere.
  destruct (nth_error l j) as [r|] eqn:E; [|reflexivity]. simpl.
  apply Hid in E. apply Nat.eqb_neq in Hj. now rewrite E, Hj.
Qed.

Lemma mapWhere_same (i : nat) (f : SceneResult -> SceneResult)
    (l : list SceneResult) (r : SceneResult) :
  IdsAreIndices l -> nth_error l i = Some r ->
  nth_error (mapWhere i f l) i = Some (f r).
Proof.
  intros Hid Hr. rewrite nth_error_mapWhere, Hr. simpl.
  apply Hid in Hr. now rewrite Hr, Nat.eqb_refl.
Qed.

Lemma mapWhere_ids (i : nat) (f : SceneResult -> SceneResult) (l : list SceneResult) :
  (forall r, id (f r) = id r) -> IdsAreIndices l -> IdsAreIndices (mapWhere i f l).
Proof.
  intros Hf Hid j r. rewrite nth_error_mapWhere.
  destruct (nth_error l j) as [r0|] eqn:E; [|discriminate]. simpl.
  intros [= <-]. apply Hid in E. destruct (id r0 =? i); [now rewrite Hf | assumption].
Qed.

Lemma mapWhere_fuse (i : nat) (f g : SceneResult -> SceneResult) (l : list SceneResult) :
  (forall r, id (g r) = id r) ->
  mapWhere i f (mapWhere i g l) = mapWhere i (fun r => f (g r)) l.
Proof.
  intros Hg. unfold mapWhere. rewrite map_map. apply map_ext. intros r.
  destruct (id r =? i) eqn:E; [now rewrite Hg, E | now rewrite E].
Qed.

Lemma results_whileGenerating (total i : nat) (cur : SceneResult) (p : json) (st : AppState) :
  results (whileGenerating total i cur p st)
  = mapWhere i (fun r => toGenerating p (toAnalyzing r)) (results st).
Proof.
  unfold whileGenerating, whileAnalyzing.
  destruct (i =? 0);
    cbn [results setResults setBaseCharacterProfile setProgressMessage];
    now rewrite mapWhere_fuse.
Qed.

Lemma completedCount_whileGenerating (total i : nat) (cur : SceneResult) (p : json)
    (st : AppState) :
  completedCount (whileGenerating total i cur p st) = completedCount st.
Proof. unfold whileGenerating. now destruct (i =? 0). Qed.

(** ** What one iteration changes *)

(** The items: only those whose id is [i], which end in a terminal state
    with their id and scene kept; the stored prompt is the synthesized one
    once the iteration got past pinning. *)
Lemma step_results (total i : nat) (cur : SceneResult) (env env' : Env) :
  scene_step total i cur env env' ->
  exists F,
    results (app env') = mapWhere i F (results (app env))
    /\ (forall r, id (F r) = id r /\ scene (F r) = scene r
                  /\ terminal (status (F r)) = true)
    /\ (forall p, prompt_answer (List.length (inFlight env)) (scene cur) (baseCharacter env)
                    = Returned p ->
                  (i = 0 -> p <> JNull) -> forall r, jsonPrompt (F r) = p).
Proof.
  intros [err Hp | Hi Hp | p err Hp Hnn Him | p d Hp Hnn Him];
    cbn [app results setCompletedCount setResults].
  - exists (fun r => toError err (toAnalyzing r)). split; [|split].
    + unfold whileAnalyzing. cbn [results setResults]. now rewrite mapWhere_fuse.
    + intros r. now repeat split.
    + intros p Hp'. congruence.
  - exists (fun r => toError (Error (typeErrorMessage (ReadOfNull (lit "character_id"))))
                             (toAnalyzing r)).
    split; [|split].
    + unfold whileAnalyzing. cbn [results setResults]. now rewrite mapWhere_fuse.
    + intros r. now repeat split.
    + intros p Hp' Hnn. rewrite Hp in Hp'. injection Hp' as <-. now destruct (Hnn Hi).
  - exists (fun r => toError err (toGenerating p (toAnalyzing r))). split; [|split].
    + rewrite results_whileGenerating. now rewrite mapWhere_fuse.
    + intros r. now repeat split.
    + intros p' Hp' _ r. rewrite Hp in Hp'. now injection Hp' as <-.
  - exists (fun r => toComplete p d (toGenerating p (toAnalyzing r))). split; [|split].
    + rewrite results_whileGenerating. now rewrite mapWhere_fuse.
    + intros r. now repeat split.
    + intros p' Hp' _ r. rewrite Hp in Hp'. now injection Hp' as <-.
Qed.

Lemma step_count (total i : nat) (cur : SceneResult) (env env' : Env) :
  scene_step total i cur env env' ->
  completedCount (app env') = S (completedCount (app env)).
Proof.
  intros [err Hp | Hi Hp | p err Hp Hnn Him | p d Hp Hnn Him];
    cbn [app completedCount setCompletedCount setResults];
    rewrite ?completedCount_whileGenerating; reflexivity.
Qed.

(** The calls: the prompt request for the scene first, then at most the
    image request for the prompt it returned; while either is in flight the
    count is the one before the iteration and the items with id [i] are in
    progress. *)
Lemma step_calls (total i : nat) (cur : SceneResult) (env env' : Env) :
  scene_step total i cur env env' ->
  exists calls,
    inFlight env' = inFlight env ++ promptCall total i cur env :: calls
    /\ (calls = []
        \/ exists p, calls = [imageCall total i cur p env]
                     /\ prompt_answer (List.length (inFlight env)) (scene cur)
                          (baseCharacter env) = Returned p
                     /\ (i = 0 -> p <> JNull))
    /\ Forall (fun call =>
                 completedCount (snd call) = completedCount (app env)
                 /\ exists G, results (snd call) = mapWhere i G (results (app env))
                      /\ forall r, id (G r) = id r /\ inProgress (status (G r)) = true)
              (promptCall total i cur env :: calls).
Proof.
  assert (Hprompt : completedCount (snd (promptCall total i cur env)) = completedCount (app env)
            /\ exists G, results (snd (promptCall total i cur env))
                         = mapWhere i G (results (app env))
                 /\ forall r, id (G r) = id r /\ inProgress (status (G r)) = true).
  { split; [reflexivity|]. exists toAnalyzing. split; [reflexivity|]. now intros r. }
  assert (Himage : forall p,
            completedCount (snd (imageCall total i cur p env)) = completedCount (app env)
            /\ exists G, results (snd (imageCall total i cur p env))
                         = mapWhere i G (results (app env))
                 /\ forall r, id (G r) = id r /\ inProgress (status (G r)) = true).
  { intros p. unfold imageCall. cbn [snd]. split.
    - apply completedCount_whileGenerating.
    - eexists. split; [apply results_whileGenerating|]. now intros r. }
  intros [err Hp | Hi Hp | p err Hp Hnn Him | p d Hp Hnn Him]; cbn [inFlight].
  - exists []. repeat split; auto.
  - exists []. repeat split; auto.
  - exists [imageCall total i cur p env]. split; [reflexivity|]. split; eauto.
  - exists [imageCall total i cur p env]. split; [reflexivity|]. split; eauto.
Qed.

(** ** Progress of a run *)

Lemma step_progress (total i : nat) (cur : SceneResult) (env env' : Env) :
  scene_step total i cur env env' ->
  IdsAreIndices (results (app env)) ->
  i < List.length (results (app env)) ->
  completedCount (app env) = i ->
  (forall j r, j < i -> nth_error (results (app env)) j = Some r ->
               terminal (status r) = true) ->
  completedCount (app env') = S i
  /\ IdsAreIndices (results (app env'))
  /\ List.length (results (app env')) = List.length (results (app env))
  /\ (forall j r, j < S i -> nth_error (results (app env')) j = Some r ->
                  terminal (status r) = true)
  /\ exists calls,
       inFlight env' = inFlight env ++ calls
       /\ map sceneOfCall (filter isPromptCall calls) = [scene cur]
       /\ Forall (fun call => Observed (snd call) /\ completedCount (snd call) = i) calls.
Proof.
  intros Hstep Hid Hlt Hc Hterm.
  destruct (step_results Hstep) as (F & HF & HFp & _).
  destruct (step_calls Hstep) as (calls & Hlog & Hshape & Hall).
  destruct (nth_error (results (app env)) i) as [r0|] eqn:Hr0;
    [|apply nth_error_None in Hr0; lia].
  split; [|split; [|split; [|split]]].
  - now rewrite (step_count Hstep), Hc.
  - rewrite HF. apply mapWhere_ids; [apply HFp | assumption].
  - now rewrite HF, mapWhere_length.
  - intros j r Hj. rewrite HF. destruct (Nat.eq_dec j i) as [->|Hne].
    + rewrite (@mapWhere_same i F _ r0 Hid Hr0). intros [= <-]. apply HFp.
    + rewrite (@mapWhere_other i F _ j Hid Hne). apply Hterm. lia.
  - exists (promptCall total i cur env :: calls). split; [exact Hlog|]. split.
    + destruct Hshape as [-> | (p & -> & _)]; reflexivity.
    + eapply Forall_impl; [|exact Hall]. intros call (Hcount & G & HG & HGp).
      split; [|congruence].
      unfold Observed. rewrite Hcount, Hc, HG. split.
      * exists (G r0). split; [now apply mapWhere_same | apply HGp].
      * intros j r Hj. rewrite (@mapWhere_other i G _ j Hid) by lia. now apply Hterm.
Qed.

Lemma steps_progress (total : nat) (i : nat) (rest : list SceneResult) (env env' : Env) :
  scene_steps total i rest env env' ->
  IdsAreIndices (results (app env)) ->
  i + List.length rest <= List.length (results (app env)) ->
  completedCount (app env) = i ->
  (forall j r, j < i -> nth_error (results (app env)) j = Some r ->
               terminal (status r) = true) ->
  completedCount (app env') = i + List.length rest
  /\ IdsAreIndices (results (app env'))
  /\ List.length (results (app env')) = List.length (results (app env))
  /\ (forall j r, j < i + List.length rest -> nth_error (results (app env')) j = Some r ->
                  terminal (status r) = true)
  /\ exists calls,
       inFlight env' = inFlight env ++ calls
       /\ map sceneOfCall (filter isPromptCall calls) = map scene rest
       /\ Forall (fun call => Observed (snd call)
                              /\ completedCount (snd call) < i + List.length rest) calls.
Proof.
  induction 1 as [i env | i cur rest env env1 env2 Hstep Hsteps IH];
    intros Hid Hlen Hc Hterm; cbn [List.length] in *.
  - rewrite Nat.add_0_r. repeat split; auto.
    exists []. rewrite app_nil_r. repeat split; auto.
  - destruct (step_progress Hstep Hid) as (Hc1 & Hid1 & Hlen1 & Hterm1 & calls1 & Hlog1 & Hsc1 & Hobs1);
      [lia | assumption | assumption |].
    destruct (IH Hid1) as (Hc2 & Hid2 & Hlen2 & Hterm2 & calls2 & Hlog2 & Hsc2 & Hobs2);
      [lia | assumption | assumption |].
    split; [lia|]. split; [assumption|]. split; [congruence|]. split.
    + intros j r Hj. apply Hterm2. lia.
    + exists (calls1 ++ calls2). split; [now rewrite Hlog2, Hlog1, app_assoc|]. split.
      * rewrite filter_app, map_app, Hsc1, Hsc2. reflexivity.
      * apply Forall_app. split.
        -- eapply Forall_impl; [|exact Hobs1]. intros call [Hobs Hcount].
           split; [exact Hobs | lia].
        -- eapply Forall_impl; [|exact Hobs2]. intros call [Hobs Hlt].
           split; [exact Hobs | lia].
Qed.

Lemma parseScenes_ids (parsed : json) (rs : list SceneResult) :
  parseScenes parsed = Returned rs -> IdsAreIndices rs.
Proof.
  assert (H : forall entries i rs', mapItems i entries = Returned rs' ->
              forall j r, nth_error rs' j = Some r -> id r = i + j).
  { induction entries as [|e entries IH]; intros i rs'; simpl.
    - intros [= <-] [|j] r; discriminate.
    - destruct (sceneDescriptionOf e) as [d|]; [|discriminate].
      destruct (mapItems (S i) entries) as [rs''|] eqn:E; [|discriminate].
      intros [= <-] [|j] r; simpl.
      + intros [= <-]. simpl. lia.
      + intros Hr. rewrite (IH _ _ E _ _ Hr). lia. }
  destruct parsed as [ | | | | entries | ]; try discriminate.
  destruct entries as [|e entries]; [discriminate|].
  intros Hmap j r Hr. exact (H _ _ _ Hmap _ _ Hr).
Qed.

(** C5. In a run on a batch whose items sit at the indices their ids name,
    the handler returns whatever the items' outcomes; it makes one prompt
    request per item, in index order; while any call is in flight the item at
    the position the count names is in progress, every item before it is
    terminal and the count is below the batch length; when the run is over
    every item is terminal and the count is the batch length. *)
Theorem batch_progress (env : Env) :
  results (app env) <> [] ->
  isProcessing (app env) = false ->
  IdsAreIndices (results (app env)) ->
  exists calls,
    fst (generate_all env) = Returned tt
    /\ completedCount (app (snd (generate_all env))) = List.length (results (app env))
    /\ List.length (results (app (snd (generate_all env)))) = List.length (results (app env))
    /\ (forall j r, nth_error (results (app (snd (generate_all env)))) j = Some r ->
                    terminal (status r) = true)
    /\ isProcessing (app (snd (generate_all env))) = false
    /\ inFlight (snd (generate_all env)) = inFlight env ++ calls
    /\ map sceneOfCall (filter isPromptCall calls) = map scene (results (app env))
    /\ Forall (fun call => Observed (snd call)
                           /\ completedCount (snd call) < List.length (results (app env)))
              calls.
Proof.
  intros Hne Hproc Hid.
  destruct (handleGenerateAll_runs env Hne Hproc) as (env' & Hsteps & ->).
  destruct (@steps_progress _ 0 _ _ _ Hsteps) as (Hc & Hid' & Hlen & Hterm & calls & Hlog & Hsc & Hobs);
    cbn [runStart app results setCompletedCount setIsProcessing completedCount];
    try assumption; try lia; try (intros j r Hj; lia).
  cbn [runStart app results setCompletedCount setIsProcessing completedCount
       List.length Nat.add inFlight] in *.
  exists calls. cbn [fst snd runFinish app inFlight].
  cbn [results completedCount isProcessing setIsProcessing setProgressMessage].
  split; [reflexivity|]. split; [exact Hc|]. split; [exact Hlen|].
  split; [|split; [reflexivity|]; split; [exact Hlog|]; split; [exact Hsc | exact Hobs]].
  intros j r Hr. apply (Hterm j r); [|exact Hr].
  assert (Hs : nth_error (results (app env')) j <> None) by congruence.
  apply nth_error_Some in Hs. lia.
Qed.

(** ** The pinned identity *)

Lemma profile_whileGenerating (total i : nat) (cur : SceneResult) (p : json) (st : AppState) :
  baseCharacterProfile (whileGenerating total i cur p st)
  = if i =? 0 then Some (identityOf p) else baseCharacterProfile st.
Proof. unfold whileGenerating. now destruct (i =? 0). Qed.

Lemma pinnedIdentity_Returned (p : json) :
  p <> JNull -> pinnedIdentity (Returned p) = Some (identityOf p).
Proof. destruct p; simpl; congruence. Qed.

(** Only the iteration of index 0 writes the identity, and only when its
    prompt synthesis gave a value whose identity can be read; the prompt
    request carries the identity as it was before the iteration. *)
Lemma step_identity (total i : nat) (cur : SceneResult) (env env' : Env) :
  scene_step total i cur env env' ->
  exists pin snap0 calls,
    pin = (if i =? 0
           then pinnedIdentity (prompt_answer (List.length (inFlight env)) (scene cur)
                                  (baseCharacter env))
           else None)
    /\ baseCharacter env' = match pin with Some b => Some b | None => baseCharacter env end
    /\ baseCharacterProfile (app env')
       = match pin with Some b => Some b | None => baseCharacterProfile (app env) end
    /\ inFlight env'
       = inFlight env ++ (CharacterJsonRequest (scene cur) (baseCharacter env), snap0) :: calls
    /\ baseCharacterProfile snap0 = baseCharacterProfile (app env)
    /\ Forall (fun call => baseCharacterProfile (snd call) = baseCharacterProfile (app env')
                           /\ isPromptCall call = false) calls.
Proof.
  intros Hstep.
  exists (if i =? 0
          then pinnedIdentity (prompt_answer (List.length (inFlight env)) (scene cur)
                                 (baseCharacter env))
          else None).
  exists (whileAnalyzing total i cur (app env)).
  destruct Hstep as [err Hp | Hi Hp | p err Hp Hnn Him | p d Hp Hnn Him].
  - exists []. rewrite Hp. cbn [pinnedIdentity]. split; [reflexivity|].
    destruct (i =? 0); repeat split; constructor.
  - exists []. rewrite Hp. cbn [pinnedIdentity]. split; [reflexivity|].
    destruct (i =? 0); repeat split; constructor.
  - exists [imageCall total i cur p env]. rewrite Hp. split; [reflexivity|].
    cbn [app baseCharacter inFlight baseCharacterProfile setCompletedCount setResults].
    rewrite profile_whileGenerating.
    destruct (Nat.eqb_spec i 0) as [Hi|Hi].
    + rewrite (pinnedIdentity_Returned (Hnn Hi)).
      split; [reflexivity|]. split; [reflexivity|]. split; [reflexivity|].
      split; [reflexivity|]. constructor; [|constructor]. split; [|reflexivity].
      unfold imageCall. cbn [snd]. rewrite profile_whileGenerating. subst i. reflexivity.
    + split; [reflexivity|]. split; [reflexivity|]. split; [reflexivity|].
      split; [reflexivity|]. constructor; [|constructor]. split; [|reflexivity].
      unfold imageCall. cbn [snd]. rewrite profile_whileGenerating.
      apply Nat.eqb_neq in Hi. now rewrite Hi.
  - exists [imageCall total i cur p env]. rewrite Hp. split; [reflexivity|].
    cbn [app baseCharacter inFlight baseCharacterProfile setCompletedCount setResults].
    rewrite profile_whileGenerating.
    destruct (Nat.eqb_spec i 0) as [Hi|Hi].
    + rewrite (pinnedIdentity_Returned (Hnn Hi)).
      split; [reflexivity|]. split; [reflexivity|]. split; [reflexivity|].
      split; [reflexivity|]. constructor; [|constructor]. split; [|reflexivity].
      unfold imageCall. cbn [snd]. rewrite profile_whileGenerating. subst i. reflexivity.
    + split; [reflexivity|]. split; [reflexivity|]. split; [reflexivity|].
      split; [reflexivity|]. constructor; [|constructor]. split; [|reflexivity].
      unfold imageCall. cbn [snd]. rewrite profile_whileGenerating.
      apply Nat.eqb_neq in Hi. now rewrite Hi.
Qed.

Lemma steps_identity (total : nat) (i : nat) (rest : list SceneResult) (env env' : Env) :
  scene_steps total i rest env env' ->
  i <> 0 ->
  baseCharacter env' = baseCharacter env
  /\ baseCharacterProfile (app env') = baseCharacterProfile (app env)
  /\ exists calls,
       inFlight env' = inFlight env ++ calls
       /\ Forall (fun call =>
                    baseCharacterProfile (snd call) = baseCharacterProfile (app env)
                    /\ forall s b, fst call = CharacterJsonRequest s b ->
                                   b = baseCharacter env) calls.
Proof.
  induction 1 as [i env | i cur rest env env1 env2 Hstep Hsteps IH]; intros Hi.
  - repeat split. exists []. now rewrite app_nil_r.
  - destruct (step_identity Hstep) as (pin & snap0 & calls1 & Hpin & Hb & Hprof & Hlog & Hs0 & Hall).
    apply Nat.eqb_neq in Hi. rewrite Hi in Hpin. subst pin.
    destruct IH as (Hb2 & Hprof2 & calls2 & Hlog2 & Hall2); [lia|].
    split; [congruence|]. split; [congruence|].
    exists (((CharacterJsonRequest (scene cur) (baseCharacter env), snap0) :: calls1) ++ calls2).
    split; [now rewrite Hlog2, Hlog, <- app_assoc|].
    apply Forall_app. split.
    + constructor.
      * split; [exact Hs0|]. cbn [fst]. now intros s b [= _ <-].
      * eapply Forall_impl; [|exact Hall]. intros [req snap] [Hsnap Hreq].
        split; [cbn [snd] in *; congruence|].
        cbn [fst]. intros s b ->. discriminate.
    + eapply Forall_impl; [|exact Hall2]. intros call [Hsnap Hreq].
      split; [congruence|]. intros s b Hcall. rewrite (Hreq s b Hcall). exact Hb.
Qed.

(** C2 (amended). In a run the identity is pinned by item 0's prompt
    synthesis or not at all.  The handler's own identity ends as what item 0 pinned (nothing
    when its synthesis failed), the exposed profile is that identity, or is
    left as it was when nothing was pinned; item 0's prompt request carries
    no identity, every later prompt request carries what item 0 pinned (none
    when it pinned nothing), and from item 0's pinning on the exposed profile
    no longer changes during the run.  A reset clears it; the run itself never
    does, whatever the profile was when the run started. *)
Theorem identity_pinned_once (env : Env) (r0 : SceneResult) (rest : list SceneResult) :
  results (app env) = r0 :: rest ->
  isProcessing (app env) = false ->
  baseCharacter (snd (generate_all env))
    = pinnedIdentity (prompt_answer (List.length (inFlight env)) (scene r0) None)
  /\ baseCharacterProfile (app (snd (generate_all env)))
     = match pinnedIdentity (prompt_answer (List.length (inFlight env)) (scene r0) None) with
       | Some b => Some b
       | None => baseCharacterProfile (app env)
       end
  /\ (exists snap0 calls,
        inFlight (snd (generate_all env))
        = inFlight env ++ (CharacterJsonRequest (scene r0) None, snap0) :: calls
        /\ baseCharacterProfile snap0 = baseCharacterProfile (app env)
        /\ Forall (fun call =>
                     baseCharacterProfile (snd call)
                     = baseCharacterProfile (app (snd (generate_all env)))
                     /\ forall s b, fst call = CharacterJsonRequest s b ->
                          b = pinnedIdentity
                                (prompt_answer (List.length (inFlight env)) (scene r0) None))
                  calls)
  /\ baseCharacterProfile (handleReset (app (snd (generate_all env)))) = None.
Proof.
  intros Hrs Hproc.
  destruct (handleGenerateAll_runs env) as (env' & Hsteps & ->);
    [rewrite Hrs; discriminate | assumption |].
  rewrite Hrs in Hsteps. inversion Hsteps as [|? ? ? ? env1 ? Hstep Hrest]; subst.
  destruct (step_identity Hstep) as (pin & snap0 & calls1 & Hpin & Hb & Hprof & Hlog & Hs0 & Hall).
  destruct (steps_identity Hrest) as (Hb2 & Hprof2 & calls2 & Hlog2 & Hall2); [lia|].
  cbn [runStart app baseCharacter inFlight Nat.eqb baseCharacterProfile
       setCompletedCount setIsProcessing] in *.
  subst pin.
  set (pinned := pinnedIdentity (prompt_answer (List.length (inFlight env)) (scene r0) None)) in *.
  assert (Hbase1 : baseCharacter env1 = pinned) by (rewrite Hb; now destruct pinned).
  cbn [snd runFinish app baseCharacter inFlight baseCharacterProfile
       setIsProcessing setProgressMessage].
  split; [congruence|]. split; [congruence|]. split; [|reflexivity].
  exists snap0, (calls1 ++ calls2). split; [now rewrite Hlog2, Hlog, <- app_assoc|].
  split; [exact Hs0|]. apply Forall_app. split.
  - eapply Forall_impl; [|exact Hall]. intros [req snap] [Hsnap Hreq].
    split; [cbn [snd] in *; congruence|].
    cbn [fst]. intros s b ->. discriminate.
  - eapply Forall_impl; [|exact Hall2]. intros call [Hsnap Hreq].
    split; [congruence|]. intros s b Hcall. rewrite (Hreq s b Hcall). exact Hbase1.
Qed.

(** ** Identity carried by the stored prompts *)

Local Abbreviation honoured := (Honoured JSON_parse ai).

Lemma steps_log (total : nat) (i : nat) (rest : list SceneResult) (env env' : Env) :
  scene_steps total i rest env env' ->
  exists calls, inFlight env' = inFlight env ++ calls.
Proof.
  induction 1 as [i env | i cur rest env env1 env2 Hstep Hsteps (calls2 & IH)].
  - exists []. now rewrite app_nil_r.
  - destruct (step_calls Hstep) as (calls1 & Hlog & _).
    eexists. rewrite IH, Hlog, <- app_assoc. reflexivity.
Qed.

(** The prompt request of an iteration stays where it was logged. *)
Lemma step_call_logged (total i : nat) (cur : SceneResult) (rest : list SceneResult)
    (env env1 env2 : Env) :
  scene_step total i cur env env1 ->
  scene_steps total (S i) rest env1 env2 ->
  nth_error (inFlight env2) (List.length (inFlight env)) = Some (promptCall total i cur env)
  /\ List.length (inFlight env) < List.length (inFlight env1).
Proof.
  intros Hstep Hsteps.
  destruct (step_calls Hstep) as (calls1 & Hlog & _).
  destruct (steps_log Hsteps) as (calls2 & Hlog2).
  rewrite Hlog2, Hlog, <- app_assoc. split.
  - rewrite nth_error_app2 by lia. now rewrite Nat.sub_diag.
  - rewrite length_app. simpl. lia.
Qed.

Lemma steps_echo (total : nat) (i : nat) (rest : list SceneResult) (env env' : Env) :
  scene_steps total i rest env env' ->
  i <> 0 ->
  IdsAreIndices (results (app env)) ->
  i + List.length rest <= List.length (results (app env)) ->
  forall b0, baseCharacter env = Some b0 ->
  honoured (List.length (inFlight env)) (inFlight env') ->
  IdsAreIndices (results (app env'))
  /\ List.length (results (app env')) = List.length (results (app env))
  /\ (forall j, j < i ->
        nth_error (results (app env')) j = nth_error (results (app env)) j)
  /\ (forall j r, i <= j < i + List.length rest ->
        nth_error (results (app env')) j = Some r -> identityOf (jsonPrompt r) = b0).
Proof.
  induction 1 as [i env | i cur rest env env1 env2 Hstep Hsteps IH];
    intros Hi Hid Hlen b0 Hb0 Hon; cbn [List.length] in *.
  - repeat split; auto. intros j r Hj. lia.
  - destruct (step_call_logged Hstep Hsteps) as [Hcall Hlt].
    destruct (Hon _ _ _ _ (Nat.le_refl _) Hcall) as (p & Hp & _ & Hecho).
    specialize (Hecho b0 Hb0).
    destruct (step_results Hstep) as (F & HF & HFp & HFprompt).
    specialize (HFprompt p Hp (fun H => match Hi H with end)).
    destruct (step_identity Hstep) as (pin & _ & _ & Hpin & Hb1 & _).
    pose proof Hi as Hi0. apply Nat.eqb_neq in Hi0. rewrite Hi0 in Hpin. subst pin.
    assert (Hid1 : IdsAreIndices (results (app env1)))
      by (rewrite HF; apply mapWhere_ids; [apply HFp | assumption]).
    assert (Hlen1 : List.length (results (app env1)) = List.length (results (app env)))
      by (now rewrite HF, mapWhere_length).
    destruct (IH (Nat.neq_succ_0 i) Hid1) with (b0 := b0)
      as (Hid2 & Hlen2 & Hkeep & Hlater); [lia | congruence | |].
    { intros c s b snap Hc. apply Hon. lia. }
    split; [assumption|]. split; [congruence|]. split.
    + intros j Hj. rewrite Hkeep by lia. rewrite HF. apply mapWhere_other; [assumption | lia].
    + intros j r Hj. destruct (Nat.eq_dec j i) as [->|Hne].
      * rewrite Hkeep by lia. rewrite HF.
        destruct (nth_error (results (app env)) i) as [r0|] eqn:Hr0;
          [|apply nth_error_None in Hr0; lia].
        rewrite (@mapWhere_same i F _ r0 Hid Hr0). intros [= <-].
        now rewrite HFprompt.
      * apply Hlater. lia.
Qed.

(** C1 (amended). In a run on a batch whose items sit at the indices their
    ids name, if every prompt synthesis of the run succeeds and the
    synthesizer keeps to its contract (a readable identity when asked without
    one, the given identity echoed when asked with one), then the exposed
    profile is the identity of what item 0's prompt synthesis returned, item
    0 stores that prompt, and the prompt stored on every later item carries
    the same [character_id] and [appearance]. *)
Theorem identity_consistent_when_echoed (env : Env) (r0 : SceneResult)
    (rest : list SceneResult) :
  results (app env) = r0 :: rest ->
  isProcessing (app env) = false ->
  IdsAreIndices (results (app env)) ->
  honoured (List.length (inFlight env)) (inFlight (snd (generate_all env))) ->
  exists p0,
    prompt_answer (List.length (inFlight env)) (scene r0) None = Returned p0
    /\ baseCharacterProfile (app (snd (generate_all env))) = Some (identityOf p0)
    /\ (exists r, nth_error (results (app (snd (generate_all env)))) 0 = Some r
                  /\ jsonPrompt r = p0)
    /\ forall i r, 0 < i ->
         nth_error (results (app (snd (generate_all env)))) i = Some r ->
         character_id (identityOf (jsonPrompt r)) = character_id (identityOf p0)
         /\ appearance (identityOf (jsonPrompt r)) = appearance (identityOf p0).
Proof.
  intros Hrs Hproc Hid.
  destruct (handleGenerateAll_runs env) as (env' & Hsteps & ->);
    [rewrite Hrs; discriminate | assumption |].
  cbn [snd runFinish app inFlight results baseCharacterProfile
       setIsProcessing setProgressMessage].
  intros Hon. rewrite Hrs in Hsteps, Hid.
  inversion Hsteps as [|? ? ? ? env1 ? Hstep Hrest]; subst.
  destruct (step_call_logged Hstep Hrest) as [Hcall Hlt].
  cbn [runStart app baseCharacter inFlight promptCall] in Hcall, Hlt.
  destruct (Hon _ _ _ _ (Nat.le_refl _) Hcall) as (p0 & Hp0 & Hnn & _).
  specialize (Hnn eq_refl). cbn [runStart baseCharacter inFlight] in Hp0.
  destruct (step_results Hstep) as (F & HF & HFp & HFprompt).
  cbn [runStart app baseCharacter inFlight results setCompletedCount setIsProcessing]
    in HF, HFprompt.
  rewrite Hrs in HF.
  specialize (HFprompt p0 Hp0 (fun _ => Hnn)).
  destruct (step_identity Hstep) as (pin & _ & _ & Hpin & Hb1 & Hprof1 & _).
  cbn [runStart app baseCharacter inFlight Nat.eqb] in Hpin, Hb1, Hprof1.
  rewrite Hp0, (pinnedIdentity_Returned Hnn) in Hpin. subst pin.
  assert (Hid1 : IdsAreIndices (results (app env1)))
    by (rewrite HF; apply mapWhere_ids; [apply HFp | assumption]).
  assert (Hlen1 : List.length (results (app env1)) = S (List.length rest))
    by (now rewrite HF, mapWhere_length).
  destruct (steps_identity Hrest) as (_ & Hprof2 & _); [lia|].
  destruct (@steps_echo _ 1 _ _ _ Hrest) with (b0 := identityOf p0)
    as (_ & Hlen2 & Hkeep & Hlater); try assumption; try lia.
  { intros c s b snap Hc. apply Hon. cbn [runStart inFlight] in Hlt. lia. }
  exists p0. split; [exact Hp0|]. split; [congruence|]. split.
  - exists (F r0). split; [|apply HFprompt].
    rewrite Hkeep by lia. rewrite HF. now apply mapWhere_same.
  - intros i r Hi Hr.
    assert (Hs : nth_error (results (app env')) i <> None) by congruence.
    apply nth_error_Some in Hs.
    rewrite (Hlater i r); [auto | lia | exact Hr].
Qed.

(** ** Edit and re-run *)

(** A re-run whose text parses: one image request, then the item update. *)
Lemma handleRegenerate_runs (env : Env) (editing : SceneResult) (parsedJson : json) :
  editingScene (app env) = Some editing ->
  JSON_parse (editedJsonText (app env)) = Returned parsedJson ->
  regenerate env
  = (Returned tt,
     {| app := setIsRegenerating false
                 (setResults
                    (mapWhere (id editing)
                       (match image_answer (List.length (inFlight env)) parsedJson with
                        | Returned imageData => toRegenerated imageData
                        | Thrown err => toError err
                        end))
                    (whileRegenerating editing parsedJson (app env)));
        baseCharacter := baseCharacter env;
        inFlight := inFlight env
                    ++ [(ImageRequest parsedJson,
                         whileRegenerating editing parsedJson (app env))] |}).
Proof.
  intros Hed Hparse. unfold handleRegenerate. run. rewrite Hed, Hparse.
  unfold handleCloseEditModal, whileRegenerating, imageAnswer. run.
  destruct (isRegenerating (app env)); run;
    destruct (ai (List.length (inFlight env)) (ImageRequest parsedJson)) as [r|e];
    try destruct (imageDataOf typeErrorMessage r); reflexivity.
Qed.

Lemma profile_whileRegenerating (editing : SceneResult) (p : json) (st : AppState) :
  baseCharacterProfile (whileRegenerating editing p st) = baseCharacterProfile st
  /\ completedCount (whileRegenerating editing p st) = completedCount st
  /\ results (whileRegenerating editing p st)
     = mapWhere (id editing) (toGenerating p) (results st).
Proof. unfold whileRegenerating. now destruct (isRegenerating st). Qed.

(** C6 (amended). A re-run whose edited text parses makes exactly one
    outbound call, an image request for the edited prompt, and no prompt
    synthesis.  While that call is in flight the items with the edited id are
    generating from the edited prompt; afterwards they store the edited
    prompt and are complete with the new image and no error, or in error with
    the message and the image they had.  Their id and scene, every item with
    another id, the exposed profile, the run's own identity and the processed
    count are unchanged. *)
Theorem rerun_frame (env : Env) (editing : SceneResult) (parsedJson : json) :
  editingScene (app env) = Some editing ->
  JSON_parse (editedJsonText (app env)) = Returned parsedJson ->
  exists snap,
    fst (regenerate env) = Returned tt
    /\ inFlight (snd (regenerate env)) = inFlight env ++ [(ImageRequest parsedJson, snap)]
    /\ baseCharacterProfile snap = baseCharacterProfile (app env)
    /\ baseCharacterProfile (app (snd (regenerate env))) = baseCharacterProfile (app env)
    /\ baseCharacter (snd (regenerate env)) = baseCharacter env
    /\ completedCount (app (snd (regenerate env))) = completedCount (app env)
    /\ List.length (results (app (snd (regenerate env)))) = List.length (results (app env))
    /\ forall j r, nth_error (results (app env)) j = Some r ->
         (id r <> id editing ->
            nth_error (results snap) j = Some r
            /\ nth_error (results (app (snd (regenerate env)))) j = Some r)
         /\ (id r = id editing ->
               nth_error (results snap) j = Some (toGenerating parsedJson r)
               /\ exists r',
                    nth_error (results (app (snd (regenerate env)))) j = Some r'
                    /\ id r' = id r /\ scene r' = scene r /\ jsonPrompt r' = parsedJson
                    /\ ((exists imageData,
                           image_answer (List.length (inFlight env)) parsedJson
                             = Returned imageData
                           /\ status r' = complete
                           /\ image r' = Some (dataUrl imageData)
                           /\ error_ r' = None)
                        \/ (exists err,
                              image_answer (List.length (inFlight env)) parsedJson
                                = Thrown err
                              /\ status r' = error
                              /\ image r' = image r
                              /\ error_ r' = Some (message err)))).
Proof.
  intros Hed Hparse. rewrite (handleRegenerate_runs env Hed Hparse).
  destruct (profile_whileRegenerating editing parsedJson (app env)) as (Hprof & Hcount & Hres).
  exists (whileRegenerating editing parsedJson (app env)).
  cbn [fst snd app baseCharacter inFlight baseCharacterProfile completedCount results
       setIsRegenerating setResults].
  rewrite Hres, !mapWhere_length.
  split; [reflexivity|]. split; [reflexivity|]. split; [exact Hprof|].
  split; [exact Hprof|]. split; [reflexivity|]. split; [exact Hcount|].
  split; [reflexivity|].
  intros j r Hr. rewrite !nth_error_mapWhere, Hr. cbn [option_map]. split.
  - intros Hne. apply Nat.eqb_neq in Hne. rewrite Hne. cbn iota. rewrite Hne.
    split; reflexivity.
  - intros Heq. rewrite Heq, Nat.eqb_refl. cbn [toGenerating id].
    rewrite Heq, Nat.eqb_refl. split; [reflexivity|].
    destruct (image_answer (List.length (inFlight env)) parsedJson) as [d|err];
      eexists; (split; [reflexivity|]);
      cbn [toRegenerated toError toGenerating id scene jsonPrompt image status error_];
      (split; [now rewrite Heq|]); (split; [reflexivity|]); (split; [reflexivity|]).
    + left. exists d. repeat split.
    + right. exists err. repeat split.
Qed.

(** C7. A re-run whose edited text does not parse records the edit error
    and stops: no call is made, and every item, the exposed profile, the
    processed count and the open editor are as they were. *)
Theorem rerun_rejects_malformed_text (env : Env) (editing : SceneResult) (e : exn) :
  editingScene (app env) = Some editing ->
  JSON_parse (editedJsonText (app env)) = Thrown e ->
  fst (regenerate env) = Returned tt
  /\ jsonEditError (app (snd (regenerate env))) = Some invalidEditMessage
  /\ results (app (snd (regenerate env))) = results (app env)
  /\ inFlight (snd (regenerate env)) = inFlight env
  /\ baseCharacterProfile (app (snd (regenerate env))) = baseCharacterProfile (app env)
  /\ completedCount (app (snd (regenerate env))) = completedCount (app env)
  /\ editingScene (app (snd (regenerate env))) = Some editing
  /\ editedJsonText (app (snd (regenerate env))) = editedJsonText (app env)
  /\ isRegenerating (app (snd (regenerate env))) = isRegenerating (app env).
Proof.
  intros Hed Hparse. unfold handleRegenerate. run. rewrite Hed, Hparse. run.
  cbn. repeat split. exact Hed.
Qed.

(** ** The service wrappers *)

Lemma firstInlineData_first (before : list Part) (part : Part) (after : list Part)
    (d : jsstring) :
  Forall (fun p => inlineData p = None) before ->
  inlineData part = Some {| data := d |} ->
  firstInlineData (before ++ part :: after) = Some d.
Proof.
  induction 1 as [|p before Hp _ IH]; intros Hpart; simpl.
  - now rewrite Hpart.
  - rewrite Hp. now apply IH.
Qed.

Lemma firstInlineData_None (ps : list Part) :
  firstInlineData ps = None <-> Forall (fun p => inlineData p = None) ps.
Proof.
  induction ps as [|p ps IH]; simpl.
  - split; auto.
  - destruct (inlineData p) eqn:E; split.
    + discriminate.
    + intros H. inversion H; congruence.
    + intros H. constructor; [assumption | now apply IH].
    + intros H. inversion H. now apply IH.
Qed.

Lemma imageDataOf_payload (response : GenerateContentResponse) :
  (forall d, FirstCandidateImage response d ->
             imageDataOf typeErrorMessage response = Returned d)
  /\ (~ HasImagePayload response ->
      exists e, imageDataOf typeErrorMessage response = Thrown e).
Proof.
  unfold imageDataOf, firstCandidateParts. split.
  - intros d (cand & others & c & before & part & after & Hc & Hct & Hps & Hb & Hd).
    rewrite Hc, Hct, Hps. now rewrite (@firstInlineData_first before part after d Hb Hd).
  - intros Hno.
    destruct (candidates response) as [[|cand others]|] eqn:Hc; eauto.
    destruct (content cand) as [c|] eqn:Hct; eauto.
    destruct (parts c) as [ps|] eqn:Hps; eauto.
    destruct (firstInlineData ps) as [d|] eqn:Hd; eauto.
    exfalso. apply Hno.
    assert (Hin : exists part blob, In part ps /\ inlineData part = Some blob).
    { clear - Hd. induction ps as [|p ps IH]; simpl in Hd; [discriminate|].
      destruct (inlineData p) as [blob|] eqn:E.
      - exists p, blob. simpl. auto.
      - destruct (IH Hd) as (part & blob & Hin & Hb). exists part, blob. simpl. auto. }
    destruct Hin as (part & blob & Hin & Hb).
    exists (cand :: others), cand, c, ps, part, blob. simpl. auto 10.
Qed.

(** C8 (amended). [generateCharacterJson] makes one call; it throws what the
    call throws, throws the invalid-format error when the response has no
    text or text that [JSON.parse] rejects, and otherwise returns the parsed
    value as it is, whatever fields it has.  [generateImageFromPrompt] makes
    one call; it throws what the call throws, throws when the response
    carries no image payload at all, and returns the data of the first part
    of the first candidate that carries inline data. *)
Theorem service_wrappers (env : Env) :
  (forall s b,
     generateCharacterJson JSON_parse ai s b env
     = (prompt_answer (List.length (inFlight env)) s b, called (CharacterJsonRequest s b) env))
  /\ (forall s b e,
        ai (List.length (inFlight env)) (CharacterJsonRequest s b) = Thrown e ->
        prompt_answer (List.length (inFlight env)) s b = Thrown e)
  /\ (forall s b response,
        ai (List.length (inFlight env)) (CharacterJsonRequest s b) = Returned response ->
        (text response = None ->
         prompt_answer (List.length (inFlight env)) s b = Thrown invalidJsonFormat)
        /\ (forall t e, text response = Some t -> JSON_parse t = Thrown e ->
            prompt_answer (List.length (inFlight env)) s b = Thrown invalidJsonFormat)
        /\ (forall t v, text response = Some t -> JSON_parse t = Returned v ->
            prompt_answer (List.length (inFlight env)) s b = Returned v))
  /\ (forall p,
        generateImageFromPrompt ai typeErrorMessage p env
        = (image_answer (List.length (inFlight env)) p, called (ImageRequest p) env))
  /\ (forall p e,
        ai (List.length (inFlight env)) (ImageRequest p) = Thrown e ->
        image_answer (List.length (inFlight env)) p = Thrown e)
  /\ (forall p response,
        ai (List.length (inFlight env)) (ImageRequest p) = Returned response ->
        (~ HasImagePayload response ->
         exists e, image_answer (List.length (inFlight env)) p = Thrown e)
        /\ (forall d, FirstCandidateImage response d ->
            image_answer (List.length (inFlight env)) p = Returned d)).
Proof.
  split; [|split; [|split; [|split; [|split]]]].
  - intros s b. unfold generateCharacterJson, promptAnswer, called. run.
    now destruct (ai (List.length (inFlight env)) (CharacterJsonRequest s b)).
  - intros s b e H. unfold promptAnswer. now rewrite H.
  - intros s b response H. unfold promptAnswer, parseCharacterJson. rewrite H.
    split; [|split].
    + now intros ->.
    + now intros t e -> ->.
    + now intros t v -> ->.
  - intros p. unfold generateImageFromPrompt, imageAnswer, called. run.
    now destruct (ai (List.length (inFlight env)) (ImageRequest p)).
  - intros p e H. unfold imageAnswer. now rewrite H.
  - intros p response H. unfold imageAnswer. rewrite H.
    destruct (imageDataOf_payload response) as [Hfirst Hnone]. split; auto.
Qed.

(** ** Further properties of a run *)

Local Abbreviation paired := (Paired JSON_parse ai).

Lemma map_id_mapWhere (i : nat) (F : SceneResult -> SceneResult) (l : list SceneResult) :
  (forall r, id (F r) = id r /\ scene (F r) = scene r) ->
  map id (mapWhere i F l) = map id l /\ map scene (mapWhere i F l) = map scene l.
Proof.
  intros HF. unfold mapWhere. rewrite !map_map.
  split; apply map_ext; intros r; destruct (id r =? i); auto; apply HF.
Qed.

(** The fields an iteration leaves alone. *)
Lemma step_frame (total i : nat) (cur : SceneResult) (env env' : Env) :
  scene_step total i cur env env' ->
  sameSurroundings (app env) (app env')
  /\ isProcessing (app env') = isProcessing (app env)
  /\ editingScene (app env') = editingScene (app env)
  /\ editedJsonText (app env') = editedJsonText (app env)
  /\ jsonEditError (app env') = jsonEditError (app env)
  /\ isRegenerating (app env') = isRegenerating (app env).
Proof.
  intros Hstep.
  destruct (step_results Hstep) as (F & HF & HFp & _).
  assert (Hmaps : map id (results (app env')) = map id (results (app env))
                  /\ map scene (results (app env')) = map scene (results (app env))).
  { rewrite HF. apply map_id_mapWhere. intros r. split; apply HFp. }
  assert (Hother : fileName (app env') = fileName (app env)
                   /\ fileError (app env') = fileError (app env)
                   /\ isProcessing (app env') = isProcessing (app env)
                   /\ editingScene (app env') = editingScene (app env)
                   /\ editedJsonText (app env') = editedJsonText (app env)
                   /\ jsonEditError (app env') = jsonEditError (app env)
                   /\ isRegenerating (app env') = isRegenerating (app env)).
  { clear HF HFp Hmaps.
    destruct Hstep as [err Hp | Hi Hp | p err Hp Hnn Him | p d Hp Hnn Him];
      cbn [app]; unfold whileGenerating, whileAnalyzing;
      destruct (i =? 0); cbn; repeat split; reflexivity. }
  unfold sameSurroundings. intuition.
Qed.

Lemma sameSurroundings_trans (st1 st2 st3 : AppState) :
  sameSurroundings st1 st2 -> sameSurroundings st2 st3 -> sameSurroundings st1 st3.
Proof. unfold sameSurroundings. intuition congruence. Qed.

Lemma steps_frame (total : nat) (i : nat) (rest : list SceneResult) (env env' : Env) :
  scene_steps total i rest env env' ->
  sameSurroundings (app env) (app env')
  /\ isProcessing (app env') = isProcessing (app env)
  /\ editingScene (app env') = editingScene (app env)
  /\ editedJsonText (app env') = editedJsonText (app env)
  /\ jsonEditError (app env') = jsonEditError (app env)
  /\ isRegenerating (app env') = isRegenerating (app env).
Proof.
  induction 1 as [i env | i cur rest env env1 env2 Hstep Hsteps IH].
  - unfold sameSurroundings. intuition.
  - destruct (step_frame Hstep) as (H1 & H2 & H3 & H4 & H5 & H6).
    destruct IH as (I1 & I2 & I3 & I4 & I5 & I6).
    split; [exact (sameSurroundings_trans H1 I1)|]. intuition congruence.
Qed.

(** Whatever the state, [handleGenerateAll] returns, and it leaves the file
    name and file error, the ids and scene texts of the items in their order,
    the editor and the processing flag as they were. *)
Theorem run_keeps_surroundings (env : Env) :
  fst (generate_all env) = Returned tt
  /\ sameSurroundings (app env) (app (snd (generate_all env)))
  /\ isProcessing (app (snd (generate_all env))) = isProcessing (app env)
  /\ editingScene (app (snd (generate_all env))) = editingScene (app env)
  /\ editedJsonText (app (snd (generate_all env))) = editedJsonText (app env)
  /\ jsonEditError (app (snd (generate_all env))) = jsonEditError (app env)
  /\ isRegenerating (app (snd (generate_all env))) = isRegenerating (app env).
Proof.
  destruct (results (app env)) as [|r0 rs] eqn:Hrs.
  { rewrite handleGenerateAll_guard by auto. unfold sameSurroundings. cbn. intuition. }
  destruct (isProcessing (app env)) eqn:Hproc.
  { rewrite handleGenerateAll_guard by auto. unfold sameSurroundings. cbn. intuition. }
  destruct (handleGenerateAll_runs env) as (env' & Hsteps & ->);
    [rewrite Hrs; discriminate | assumption |].
  destruct (steps_frame Hsteps) as (H1 & H2 & H3 & H4 & H5 & H6).
  unfold sameSurroundings in *.
  cbn [fst snd runFinish runStart app results fileName fileError isProcessing editingScene
       editedJsonText jsonEditError isRegenerating setIsProcessing setProgressMessage
       setCompletedCount] in *.
  intuition congruence.
Qed.

(** The calls of one iteration and the states they are observed in. *)
Lemma step_trace (total i : nat) (cur : SceneResult) (env env' : Env) :
  scene_step total i cur env env' ->
  exists calls,
    inFlight env' = inFlight env ++ calls
    /\ (forall items rest,
          paired (S i) (List.length (inFlight env) + List.length calls) items rest ->
          paired i (List.length (inFlight env)) (cur :: items) (calls ++ rest))
    /\ 1 <= List.length calls <= 2
    /\ Forall (fun call =>
                 isProcessing (snd call) = isProcessing (app env)
                 /\ completedCount (snd call) = completedCount (app env)
                 /\ progressMessage (snd call) = processingMessage i total cur) calls.
Proof.
  assert (Hsnap1 : isProcessing (snd (promptCall total i cur env)) = isProcessing (app env)
                   /\ completedCount (snd (promptCall total i cur env))
                      = completedCount (app env)
                   /\ progressMessage (snd (promptCall total i cur env))
                      = processingMessage i total cur)
    by (repeat split).
  assert (Hsnap2 : forall p,
            isProcessing (snd (imageCall total i cur p env)) = isProcessing (app env)
            /\ completedCount (snd (imageCall total i cur p env)) = completedCount (app env)
            /\ progressMessage (snd (imageCall total i cur p env))
               = processingMessage i total cur).
  { intros p. unfold imageCall, whileGenerating, whileAnalyzing. cbn [snd].
    destruct (i =? 0); repeat split. }
  intros [err Hp | Hi Hp | p err Hp Hnn Him | p d Hp Hnn Him]; cbn [inFlight].
  - exists [promptCall total i cur env]. split; [reflexivity|]. split.
    + intros items rest Hrest. cbn [List.length List.app] in *.
      rewrite Nat.add_1_r in Hrest. unfold promptCall.
      eapply PairedThrew; [exact Hp | exact Hrest].
    + split; [simpl; lia|]. constructor; [exact Hsnap1 | constructor].
  - exists [promptCall total i cur env]. split; [reflexivity|]. split.
    + intros items rest Hrest. cbn [List.length List.app] in *.
      rewrite Nat.add_1_r in Hrest. subst i. unfold promptCall.
      eapply PairedNull; [exact Hp | exact Hrest].
    + split; [simpl; lia|]. constructor; [exact Hsnap1 | constructor].
  - exists [promptCall total i cur env; imageCall total i cur p env].
    split; [reflexivity|]. split.
    + intros items rest Hrest. cbn [List.length List.app] in *.
      replace (List.length (inFlight env) + 2) with (S (S (List.length (inFlight env))))
        in Hrest by lia.
      unfold promptCall, imageCall.
      eapply PairedImage; [exact Hp | exact Hnn | exact Hrest].
    + split; [simpl; lia|].
      constructor; [exact Hsnap1 | constructor; [apply Hsnap2 | constructor]].
  - exists [promptCall total i cur env; imageCall total i cur p env].
    split; [reflexivity|]. split.
    + intros items rest Hrest. cbn [List.length List.app] in *.
      replace (List.length (inFlight env) + 2) with (S (S (List.length (inFlight env))))
        in Hrest by lia.
      unfold promptCall, imageCall.
      eapply PairedImage; [exact Hp | exact Hnn | exact Hrest].
    + split; [simpl; lia|].
      constructor; [exact Hsnap1 | constructor; [apply Hsnap2 | constructor]].
Qed.

Lemma steps_trace (total : nat) (i : nat) (rest : list SceneResult) (env env' : Env) :
  scene_steps total i rest env env' ->
  completedCount (app env) = i ->
  exists calls,
    inFlight env' = inFlight env ++ calls
    /\ paired i (List.length (inFlight env)) rest calls
    /\ List.length rest <= List.length calls <= 2 * List.length rest
    /\ Forall (fun call =>
                 isProcessing (snd call) = isProcessing (app env)
                 /\ exists k cur,
                      nth_error rest k = Some cur
                      /\ completedCount (snd call) = i + k
                      /\ progressMessage (snd call) = processingMessage (i + k) total cur)
              calls.
Proof.
  induction 1 as [i env | i cur rest env env1 env2 Hstep Hsteps IH]; intros Hc.
  - exists []. rewrite app_nil_r. repeat split; auto; constructor.
  - destruct (step_trace Hstep) as (calls1 & Hlog1 & Hp1 & Hlen1 & Hall1).
    destruct (step_frame Hstep) as (_ & Hproc & _).
    destruct IH as (calls2 & Hlog2 & Hp2 & Hlen2 & Hall2);
      [rewrite (step_count Hstep); congruence|].
    exists (calls1 ++ calls2). split; [now rewrite Hlog2, Hlog1, app_assoc|]. split.
    + apply Hp1. rewrite Hlog1, length_app in Hp2. exact Hp2.
    + split; [rewrite length_app; cbn [List.length]; lia|].
      apply Forall_app. split.
      * eapply Forall_impl; [|exact Hall1]. intros call (Hpr & Hcount & Hmsg).
        split; [exact Hpr|]. exists 0, cur. rewrite Nat.add_0_r.
        split; [reflexivity|]. split; [congruence | exact Hmsg].
      * eapply Forall_impl; [|exact Hall2]. intros call (Hpr & k & cur' & Hk & Hcount & Hmsg).
        split; [congruence|]. exists (S k), cur'.
        replace (i + S k) with (S i + k) by lia. auto.
Qed.

(** The calls of a run follow its items: every item, in index order, makes
    exactly one prompt request, for its own scene text; an image request is
    made only right after a prompt request that returned (for item 0, one
    that returned something other than [null]) and for the very prompt it
    returned; a prompt request that threw, and item 0's when it returned
    [null], is followed by the next item's prompt request.  So a run on [n]
    items makes at least [n] and at most [2 n] calls. *)
Theorem run_calls_are_paired (env : Env) :
  results (app env) <> [] ->
  isProcessing (app env) = false ->
  exists calls,
    inFlight (snd (generate_all env)) = inFlight env ++ calls
    /\ paired 0 (List.length (inFlight env)) (results (app env)) calls
    /\ List.length (results (app env)) <= List.length calls
       <= 2 * List.length (results (app env)).
Proof.
  intros Hne Hproc.
  destruct (handleGenerateAll_runs env Hne Hproc) as (env' & Hsteps & ->).
  destruct (steps_trace Hsteps) as (calls & Hlog & Hp & Hlen & _); [reflexivity|].
  exists calls. cbn [snd runFinish runStart inFlight] in *. auto.
Qed.

(** While a run is going on the processing flag is up in every state an
    observer can act on, so [handleGenerateAll] started from any of them does
    nothing; when the run is over the flag is down again. *)
Theorem run_blocks_reentry (env : Env) :
  results (app env) <> [] ->
  isProcessing (app env) = false ->
  exists calls,
    inFlight (snd (generate_all env)) = inFlight env ++ calls
    /\ calls <> []
    /\ Forall (fun call =>
                 isProcessing (snd call) = true
                 /\ forall b log,
                      generate_all {| app := snd call; baseCharacter := b; inFlight := log |}
                      = (Returned tt,
                         {| app := snd call; baseCharacter := b; inFlight := log |}))
              calls
    /\ isProcessing (app (snd (generate_all env))) = false.
Proof.
  intros Hne Hproc.
  destruct (handleGenerateAll_runs env Hne Hproc) as (env' & Hsteps & ->).
  destruct (steps_trace Hsteps) as (calls & Hlog & _ & Hlen & Hall); [reflexivity|].
  exists calls. cbn [snd runFinish runStart inFlight app isProcessing setIsProcessing
                     setProgressMessage setCompletedCount] in *.
  split; [exact Hlog|]. split.
  - intros ->. destruct (results (app env)); [congruence | simpl in Hlen; lia].
  - split; [|reflexivity].
    eapply Forall_impl; [|exact Hall]. intros call (Hpr & _). split; [exact Hpr|].
    intros b log. apply handleGenerateAll_guard. right. exact Hpr.
Qed.

(** The progress message follows the loop: in every state observed while a
    call is in flight it names the one-based position of the item being
    processed, the batch length and that item's scene text, the position
    being the processed count plus one; after the run it reports the batch
    length. *)
Theorem run_reports_position (env : Env) :
  results (app env) <> [] ->
  isProcessing (app env) = false ->
  exists calls,
    inFlight (snd (generate_all env)) = inFlight env ++ calls
    /\ Forall (fun call =>
                 exists cur,
                   nth_error (results (app env)) (completedCount (snd call)) = Some cur
                   /\ progressMessage (snd call)
                      = lit "Processing scene "
                        ++ numberToString (completedCount (snd call) + 1)
                        ++ lit " of " ++ numberToString (List.length (results (app env)))
                        ++ lit ": " ++ dquote ++ scene cur ++ dquote)
              calls
    /\ progressMessage (app (snd (generate_all env)))
       = lit "Batch processing complete. "
         ++ numberToString (List.length (results (app env))) ++ lit " scenes processed.".
Proof.
  intros Hne Hproc.
  destruct (handleGenerateAll_runs env Hne Hproc) as (env' & Hsteps & ->).
  destruct (steps_trace Hsteps) as (calls & Hlog & _ & _ & Hall); [reflexivity|].
  exists calls. cbn [snd runFinish runStart inFlight app progressMessage setIsProcessing
                     setProgressMessage] in *.
  split; [exact Hlog|]. split; [|reflexivity].
  eapply Forall_impl; [|exact Hall]. intros call (_ & k & cur & Hk & Hcount & Hmsg).
  cbn [Nat.add] in Hcount, Hmsg. exists cur. rewrite Hcount. split; [exact Hk | exact Hmsg].
Qed.

(** What an iteration does to the items with id [i]. *)
Lemma step_settles (total i : nat) (cur : SceneResult) (env env' : Env) :
  scene_step total i cur env env' ->
  exists F,
    results (app env') = mapWhere i F (results (app env))
    /\ forall r, Settled r (F r).
Proof.
  intros [err Hp | Hi Hp | p err Hp Hnn Him | p d Hp Hnn Him];
    cbn [app results setCompletedCount setResults].
  - exists (fun r => toError err (toAnalyzing r)). split.
    + unfold whileAnalyzing. cbn [results setResults]. now rewrite mapWhere_fuse.
    + intros r. unfold Settled. cbn. split; [reflexivity|]. split; [reflexivity|].
      right. split; [reflexivity|]. split; [reflexivity|].
      first [ eexists; reflexivity
            | match goal with |- exists e, Some ?m = _ => exists (Error m); reflexivity end ].
  - exists (fun r => toError (Error (typeErrorMessage (ReadOfNull (lit "character_id"))))
                             (toAnalyzing r)).
    split.
    + unfold whileAnalyzing. cbn [results setResults]. now rewrite mapWhere_fuse.
    + intros r. unfold Settled. cbn. split; [reflexivity|]. split; [reflexivity|].
      right. split; [reflexivity|]. split; [reflexivity|].
      first [ eexists; reflexivity
            | match goal with |- exists e, Some ?m = _ => exists (Error m); reflexivity end ].
  - exists (fun r => toError err (toGenerating p (toAnalyzing r))). split.
    + rewrite results_whileGenerating. now rewrite mapWhere_fuse.
    + intros r. unfold Settled. cbn. split; [reflexivity|]. split; [reflexivity|].
      right. split; [reflexivity|]. split; [reflexivity|].
      first [ eexists; reflexivity
            | match goal with |- exists e, Some ?m = _ => exists (Error m); reflexivity end ].
  - exists (fun r => toComplete p d (toGenerating p (toAnalyzing r))). split.
    + rewrite results_whileGenerating. now rewrite mapWhere_fuse.
    + intros r. unfold Settled. cbn. split; [reflexivity|]. split; [reflexivity|].
      left. split; [reflexivity|]. split; [reflexivity|]. eexists. reflexivity.
Qed.

Lemma steps_settle (total : nat) (i : nat) (rest : list SceneResult) (env env' : Env) :
  scene_steps total i rest env env' ->
  IdsAreIndices (results (app env)) ->
  i + List.length rest <= List.length (results (app env)) ->
  IdsAreIndices (results (app env'))
  /\ forall j r0, nth_error (results (app env)) j = Some r0 ->
       exists r, nth_error (results (app env')) j = Some r
                 /\ (i <= j < i + List.length rest -> Settled r0 r)
                 /\ (j < i \/ i + List.length rest <= j -> r = r0).
Proof.
  induction 1 as [i env | i cur rest env env1 env2 Hstep Hsteps IH];
    intros Hid Hlen; cbn [List.length] in *.
  - split; [exact Hid|]. intros j r0 Hr0. exists r0. split; [exact Hr0|].
    split; [lia | reflexivity].
  - destruct (step_settles Hstep) as (F & HF & HFs).
    assert (Hid1 : IdsAreIndices (results (app env1))).
    { rewrite HF. apply mapWhere_ids; [|exact Hid]. intros r. apply (HFs r). }
    destruct IH as [Hid2 Hitems]; [exact Hid1 | rewrite HF, mapWhere_length; lia |].
    split; [exact Hid2|]. intros j r0 Hr0.
    destruct (Nat.eq_dec j i) as [->|Hne].
    + destruct (Hitems i (F r0)) as (r & Hr & _ & Hsame).
      { rewrite HF. now apply mapWhere_same. }
      exists r. split; [exact Hr|]. rewrite (Hsame (or_introl (Nat.lt_succ_diag_r i))).
      split; [intros _; apply HFs | lia].
    + destruct (Hitems j r0) as (r & Hr & Hin & Hout).
      { rewrite HF. rewrite (@mapWhere_other i F _ j Hid Hne). exact Hr0. }
      exists r. split; [exact Hr|]. split.
      * intros Hj. apply Hin. lia.
      * intros Hj. apply Hout. lia.
Qed.

(** A run settles every item of a batch whose items sit at the indices their
    ids name: each one keeps its id and scene and ends either complete, with
    a data URL as image and its error cleared, or in error, with a message
    recorded and the image it had before the run. *)
Theorem run_settles_every_item (env : Env) :
  results (app env) <> [] ->
  isProcessing (app env) = false ->
  IdsAreIndices (results (app env)) ->
  forall j r0, nth_error (results (app env)) j = Some r0 ->
    exists r, nth_error (results (app (snd (generate_all env)))) j = Some r
              /\ id r = j /\ Settled r0 r.
Proof.
  intros Hne Hproc Hid j r0 Hr0.
  destruct (handleGenerateAll_runs env Hne Hproc) as (env' & Hsteps & ->).
  destruct (steps_settle Hsteps) as [Hid' Hitems]; [exact Hid | cbn; lia |].
  destruct (Hitems j r0 Hr0) as (r & Hr & Hin & _).
  exists r. cbn [snd runFinish app results setIsProcessing setProgressMessage].
  split; [exact Hr|]. split; [exact (Hid' j r Hr)|].
  apply Hin. assert (Hs : nth_error (results (app env)) j <> None) by congruence.
  apply nth_error_Some in Hs.
  cbn [runStart app results setCompletedCount setIsProcessing]. lia.
Qed.

(** After a run on such a batch, a complete item whose stored prompt is
    truthy can be exported: the link points at the item's image and is named
    after the [character_id] of the stored prompt and the item's position
    counted from one.  A complete item whose stored prompt is falsy ([null],
    [false], [0] or the empty string) cannot: the handler returns without a
    link. *)
Theorem completed_items_export (toStringOther : jsval -> jsstring) (env : Env) :
  results (app env) <> [] ->
  isProcessing (app env) = false ->
  IdsAreIndices (results (app env)) ->
  forall j r, nth_error (results (app (snd (generate_all env)))) j = Some r ->
    status r = complete ->
    (truthy (jsonPrompt r) = true ->
       exists img, image r = Some img
         /\ handleDownloadImage toStringOther r
            = Some {| href := img;
                      download :=
                        lit "scene_"
                        ++ interpolate toStringOther
                             (property (jsonPrompt r) (lit "character_id"))
                        ++ lit "_" ++ numberToString (j + 1) ++ lit ".png" |})
    /\ (truthy (jsonPrompt r) = false -> handleDownloadImage toStringOther r = None).
Proof.
  intros Hne Hproc Hid j r Hr Hst.
  destruct (handleGenerateAll_runs env Hne Hproc) as (env' & Hsteps & Hrun).
  rewrite Hrun in Hr. cbn [snd runFinish app results setIsProcessing setProgressMessage] in Hr.
  destruct (steps_settle Hsteps) as [Hid' Hitems]; [exact Hid | cbn; lia |].
  assert (Hlen : List.length (results (app env')) = List.length (results (app env))).
  { destruct (steps_frame Hsteps) as ((_ & _ & Hids & _) & _).
    apply (f_equal (@List.length nat)) in Hids. now rewrite !length_map in Hids. }
  assert (Hj : j < List.length (results (app env))).
  { rewrite <- Hlen. apply nth_error_Some. congruence. }
  destruct (nth_error (results (app env)) j) as [r0|] eqn:Hr0;
    [|apply nth_error_None in Hr0; lia].
  destruct (Hitems j r0 Hr0) as (r' & Hr' & Hin & _).
  rewrite Hr in Hr'. injection Hr' as <-.
  destruct Hin as (_ & _ & [(_ & _ & d & Himg) | (Hst' & _)]);
    [cbn [runStart app results setCompletedCount setIsProcessing]; lia | | congruence].
  unfold handleDownloadImage, downloadName. rewrite Himg, (Hid' j r Hr). split.
  - intros Ht. exists (dataUrl d). split; [reflexivity|]. now rewrite Ht.
  - intros Ht. rewrite Ht. now rewrite andb_false_r.
Qed.

(** ** Further properties of the editor, the re-run and the wrappers *)

Variable JSON_stringify : json -> jsstring.

(** A re-run whose text parses, started with no other re-run going on,
    closes the editor: while the image is in flight the re-run flag is up and
    the editor is closed; afterwards the flag is down, the editor holds no
    item, no text and no error, and a further [handleRegenerate] does nothing
    until the editor is opened again. *)
Theorem rerun_closes_editor (env : Env) (editing : SceneResult) (parsedJson : json) :
  editingScene (app env) = Some editing ->
  JSON_parse (editedJsonText (app env)) = Returned parsedJson ->
  isRegenerating (app env) = false ->
  (exists snap,
     inFlight (snd (regenerate env)) = inFlight env ++ [(ImageRequest parsedJson, snap)]
     /\ isRegenerating snap = true /\ editingScene snap = None)
  /\ editingScene (app (snd (regenerate env))) = None
  /\ editedJsonText (app (snd (regenerate env))) = []
  /\ jsonEditError (app (snd (regenerate env))) = None
  /\ isRegenerating (app (snd (regenerate env))) = false
  /\ regenerate (snd (regenerate env)) = (Returned tt, snd (regenerate env)).
Proof.
  intros Hed Hparse Hreg. rewrite (handleRegenerate_runs env Hed Hparse).
  unfold whileRegenerating. rewrite Hreg. cbn [snd app inFlight].
  split; [eexists; split; [reflexivity|]; split; reflexivity|].
  split; [reflexivity|]. split; [reflexivity|]. split; [reflexivity|].
  split; [reflexivity|].
  unfold handleRegenerate. run. reflexivity.
Qed.

(** Opening the editor on an item of a batch whose items sit at the indices
    their ids name and re-running without touching the text, when
    [JSON.parse] reads back what [JSON.stringify] wrote, asks for one image
    for the stored prompt and leaves every stored prompt as it was; only the
    item opened can change at all. *)
Theorem reopen_and_rerun_keeps_prompts (env : Env) (j : nat) (r : SceneResult) :
  nth_error (results (app env)) j = Some r ->
  IdsAreIndices (results (app env)) ->
  truthy (jsonPrompt r) = true ->
  JSON_parse (JSON_stringify (jsonPrompt r)) = Returned (jsonPrompt r) ->
  (exists snap,
     inFlight (snd (regenerate (snd (handleOpenEditModal JSON_stringify r env))))
     = inFlight env ++ [(ImageRequest (jsonPrompt r), snap)])
  /\ forall k rk, nth_error (results (app env)) k = Some rk ->
       exists rk',
         nth_error
           (results (app (snd (regenerate (snd (handleOpenEditModal JSON_stringify r env))))))
           k = Some rk'
         /\ jsonPrompt rk' = jsonPrompt rk
         /\ (k <> j -> rk' = rk).
Proof.
  intros Hr Hid Ht Hround.
  assert (Hopen : snd (handleOpenEditModal JSON_stringify r env)
                  = {| app := setJsonEditError None
                                (setEditedJsonText (JSON_stringify (jsonPrompt r))
                                   (setEditingScene (Some r) (app env)));
                       baseCharacter := baseCharacter env;
                       inFlight := inFlight env |}).
  { unfold handleOpenEditModal. rewrite Ht. run. reflexivity. }
  rewrite Hopen.
  rewrite (@handleRegenerate_runs _ r (jsonPrompt r)); [|reflexivity | exact Hround].
  cbn [snd app inFlight results setIsRegenerating setResults].
  split; [eexists; reflexivity|].
  destruct (profile_whileRegenerating r (jsonPrompt r)
              (setJsonEditError None
                 (setEditedJsonText (JSON_stringify (jsonPrompt r))
                    (setEditingScene (Some r) (app env))))) as (_ & _ & Hres).
  rewrite Hres. cbn [results setJsonEditError setEditedJsonText setEditingScene].
  intros k rk Hk. rewrite !nth_error_mapWhere, Hk. cbn [option_map].
  pose proof (Hid _ _ Hr) as Hidr. pose proof (Hid _ _ Hk) as Hidk.
  rewrite Hidr, Hidk.
  destruct (Nat.eqb_spec k j) as [->|Hne].
  - rewrite Hr in Hk. injection Hk as <-.
    cbn [toGenerating id]. rewrite Hidr, Nat.eqb_refl.
    eexists. split; [reflexivity|]. split; [|congruence].
    destruct (image_answer _ _); reflexivity.
  - rewrite Hidk. apply Nat.eqb_neq in Hne. rewrite Hne.
    exists rk. auto.
Qed.

(** [generateImageFromPrompt] reads the first candidate only: when the parts
    of the first candidate carry no inline data the wrapper throws that no
    image data was found, whatever the other candidates carry. *)
Theorem image_read_from_first_candidate_only (env : Env) (prompt : json)
    (response : GenerateContentResponse) (cand : Candidate) (others : list Candidate)
    (c : Content) (ps : list Part) :
  ai (List.length (inFlight env)) (ImageRequest prompt) = Returned response ->
  candidates response = Some (cand :: others) ->
  content cand = Some c ->
  parts c = Some ps ->
  Forall (fun p => inlineData p = None) ps ->
  generateImageFromPrompt ai typeErrorMessage prompt env
  = (Thrown (Error (lit "No image data found in the API response.")),
     called (ImageRequest prompt) env).
Proof.
  intros Hai Hc Hct Hps Hnone.
  unfold generateImageFromPrompt, called. run. rewrite Hai.
  unfold imageDataOf, firstCandidateParts. rewrite Hc, Hct, Hps.
  apply firstInlineData_None in Hnone. now rewrite Hnone.
Qed.

(** A response that lacks the candidates, the first candidate, its content
    or its parts makes [generateImageFromPrompt] throw the engine's
    [TypeError] instead of the wrapper's own error. *)
Theorem image_response_without_parts_throws_type_error (env : Env) (prompt : json)
    (response : GenerateContentResponse) :
  ai (List.length (inFlight env)) (ImageRequest prompt) = Returned response ->
  candidates response = None
  \/ candidates response = Some []
  \/ (exists cand others, candidates response = Some (cand :: others)
        /\ (content cand = None
            \/ exists c, content cand = Some c /\ parts c = None)) ->
  exists site,
    generateImageFromPrompt ai typeErrorMessage prompt env
    = (Thrown (Error (typeErrorMessage site)), called (ImageRequest prompt) env).
Proof.
  intros Hai H. unfold generateImageFromPrompt, called. run. rewrite Hai.
  unfold imageDataOf, firstCandidateParts.
  destruct H as [-> | [-> | (cand & others & -> & [-> | (c & -> & ->)])]];
    eexists; reflexivity.
Qed.

(** When item 0's prompt synthesis returns [null], reading its
    [character_id] throws inside the [try]: the item ends in error with the
    engine's message, its stored prompt and image are untouched, no identity
    is pinned, and no image is asked for it. *)
Theorem null_prompt_fails_item_0 (env : Env) (r0 : SceneResult) (rest : list SceneResult) :
  results (app env) = r0 :: rest ->
  isProcessing (app env) = false ->
  IdsAreIndices (results (app env)) ->
  prompt_answer (List.length (inFlight env)) (scene r0) None = Returned JNull ->
  nth_error (results (app (snd (generate_all env)))) 0
  = Some {| id := id r0; scene := scene r0; jsonPrompt := jsonPrompt r0; image := image r0;
            status := error;
            error_ := Some (typeErrorMessage (ReadOfNull (lit "character_id"))) |}
  /\ baseCharacterProfile (app (snd (generate_all env))) = baseCharacterProfile (app env)
  /\ baseCharacter (snd (generate_all env)) = None
  /\ forall p snap, nth_error (inFlight (snd (generate_all env)))
                      (S (List.length (inFlight env))) <> Some (ImageRequest p, snap).
Proof.
  intros Hrs Hproc Hid Hnull.
  destruct (handleGenerateAll_runs env) as (env' & Hsteps & ->);
    [rewrite Hrs; discriminate | assumption |].
  rewrite Hrs in Hsteps, Hid.
  inversion Hsteps as [|? ? ? ? env1 ? Hstep Hrest]; subst.
  cbn [snd runFinish app inFlight results baseCharacter baseCharacterProfile
       setIsProcessing setProgressMessage].
  assert (Henv1 : env1
            = {| app := setCompletedCount S
                          (setResults
                             (mapWhere 0 (toError
                                (Error (typeErrorMessage (ReadOfNull (lit "character_id"))))))
                             (whileAnalyzing (List.length (r0 :: rest)) 0 r0
                                (app (runStart env))));
                 baseCharacter := None;
                 inFlight := inFlight env
                             ++ [promptCall (List.length (r0 :: rest)) 0 r0 (runStart env)] |}).
  { inversion Hstep as [err Hp | Hi Hp | p err Hp Hnn Him | p d Hp Hnn Him];
      cbn [runStart app baseCharacter inFlight] in Hp;
      rewrite Hnull in Hp; try discriminate.
    - reflexivity.
    - injection Hp as <-. now destruct (Hnn eq_refl).
    - injection Hp as <-. now destruct (Hnn eq_refl). }
  destruct (step_results Hstep) as (F & HF & HFp & _).
  cbn [runStart app results setCompletedCount setIsProcessing] in HF. rewrite Hrs in HF.
  assert (Hid1 : IdsAreIndices (results (app env1)))
    by (rewrite HF; apply mapWhere_ids; [apply HFp | exact Hid]).
  destruct (steps_settle Hrest Hid1) as [_ Hitems].
  { rewrite HF, mapWhere_length. cbn. lia. }
  destruct (steps_identity Hrest) as (Hb & Hprof & _); [lia|].
  destruct (steps_log Hrest) as (calls2 & Hlog2).
  split; [|split; [|split]].
  - destruct (Hitems 0 (toError (Error (typeErrorMessage (ReadOfNull (lit "character_id"))))
                          (toAnalyzing r0))) as (r & Hr & _ & Hsame).
    { rewrite Henv1. cbn [app results setCompletedCount setResults whileAnalyzing
                          setProgressMessage runStart setIsProcessing].
      rewrite Hrs, mapWhere_fuse by reflexivity.
      exact (@mapWhere_same 0
               (fun r => toError (Error (typeErrorMessage (ReadOfNull (lit "character_id"))))
                                 (toAnalyzing r))
               (r0 :: rest) r0 Hid eq_refl). }
    rewrite Hr, (Hsame (or_introl (Nat.lt_0_succ 0))). reflexivity.
  - rewrite Hprof, Henv1. reflexivity.
  - rewrite Hb, Henv1. reflexivity.
  - intros p snap Hcall.
    assert (Hlog1 : inFlight env1
                    = inFlight env
                      ++ [promptCall (List.length (r0 :: rest)) 0 r0 (runStart env)])
      by (rewrite Henv1; reflexivity).
    rewrite Hlog2, Hlog1, <- app_assoc in Hcall.
    rewrite nth_error_app2 in Hcall by lia.
    replace (S (List.length (inFlight env)) - List.length (inFlight env)) with 1
      in Hcall by lia.
    cbn [List.app nth_error] in Hcall.
    clear Henv1 Hlog1 HF Hitems Hb Hprof Hid1 Hstep Hsteps.
    inversion Hrest as [i0 e0 | i0 cur rest' e0 e1 e2 Hstep' Hrest']; subst.
    + apply (f_equal (@List.length _)) in Hlog2. rewrite length_app in Hlog2.
      destruct calls2; [discriminate Hcall | cbn in Hlog2; lia].
    + destruct (step_call_logged Hstep' Hrest') as [Hlogged _].
      rewrite Hlog2 in Hlogged.
      rewrite nth_error_app2 in Hlogged by lia. rewrite Nat.sub_diag in Hlogged.
      destruct calls2 as [|call calls2]; [discriminate Hcall|].
      cbn [nth_error] in Hlogged. unfold promptCall in Hlogged. congruence.
Qed.

End PipelineProperties.

(* ================================================================== *)
(** * Export *)

(** C9 (amended). A completed item, one with an image and a stored prompt
    whose [character_id] is the string [s], is exported under the name made
    of [s], the [character_id] of the item's own stored prompt, and the item's
    id plus one. *)
Theorem download_name_from_stored_prompt (toStringOther : jsval -> jsstring)
    (result : SceneResult) (img s : jsstring) :
  image result = Some img ->
  img <> [] ->
  truthy (jsonPrompt result) = true ->
  property (jsonPrompt result) (lit "character_id") = Some (JStr s) ->
  handleDownloadImage toStringOther result
  = Some {| href := img;
            download := lit "scene_" ++ s ++ lit "_"
                        ++ numberToString (id result + 1) ++ lit ".png" |}.
Proof.
  intros Himg Hne Hp Hcid. unfold handleDownloadImage, downloadName, interpolate.
  apply nonEmpty_true in Hne. now rewrite Himg, Hne, Hp, Hcid.
Qed.

(* ================================================================== *)
(** * The theorems at the worked inputs *)

Lemma parse_valid_batch_witness :
  exampleParse (fileContent heroFile) = Returned (JArr heroEntries)
  /\ heroEntries <> []
  /\ Forall2 Usable heroEntries
       [lit "a hero walks on the beach"; lit "a hero sits by a fire"]
  /\ nth_error (results (handleFileChange exampleParse [heroFile] initialState)) 1
     = Some {| id := 1; scene := lit "a hero sits by a fire"; jsonPrompt := JNull;
               image := None; status := pending; error_ := None |}.
Proof.
  assert (H1 : exampleParse (fileContent heroFile) = Returned (JArr heroEntries))
    by (vm_compute; reflexivity).
  assert (H2 : heroEntries <> []) by discriminate.
  assert (H3 : Forall2 Usable heroEntries
                 [lit "a hero walks on the beach"; lit "a hero sits by a fire"]).
  { constructor; [|constructor; [|constructor]].
    - apply (@UsableString (lit "a hero walks on the beach")). vm_compute. discriminate.
    - apply (@UsableObject [(lit "scene", JStr (lit " a hero sits by a fire "))]
               [] (lit "scene") [lit "prompt"; lit "description"; lit "text"]
               (lit " a hero sits by a fire ")).
      + reflexivity.
      + reflexivity.
      + vm_compute. discriminate.
      + intros key' []. }
  split; [exact H1|]. split; [exact H2|]. split; [exact H3|].
  apply (parse_valid_batch exampleParse heroFile initialState H1 H2 H3). reflexivity.
Defined.

Lemma parse_malformed_rejected_witness :
  exampleParse (fileContent fooFile) = Returned (JArr fooEntries)
  /\ Malformed (JArr fooEntries)
  /\ results (handleFileChange exampleParse [fooFile] initialState) = [].
Proof.
  assert (H1 : exampleParse (fileContent fooFile) = Returned (JArr fooEntries))
    by (vm_compute; reflexivity).
  assert (H2 : Malformed (JArr fooEntries)).
  { apply (@BadEntry fooEntries 0 (JObj [(lit "foo", JStr (lit "bar"))])).
    - reflexivity.
    - apply sceneDescriptionOf_None. reflexivity. }
  split; [exact H1|]. split; [exact H2|].
  exact (proj1 (parse_malformed_rejected exampleParse fooFile initialState H1 H2)).
Defined.

Lemma skipped_key_falls_through_witness :
  Skipped blankSceneProps (lit "scene")
  /\ firstUsable (JObj blankSceneProps) potentialKeys = Some (lit "x").
Proof.
  assert (H : Skipped blankSceneProps (lit "scene")).
  { right; right. exists (lit "  "). split; reflexivity. }
  split; [exact H|].
  unfold potentialKeys.
  rewrite (proj1 (skipped_key_falls_through blankSceneProps) _ _ H).
  reflexivity.
Defined.

Lemma batch_progress_witness :
  results (app uploaded) <> []
  /\ isProcessing (app uploaded) = false
  /\ IdsAreIndices (results (app uploaded))
  /\ completedCount (app (generated echoingService)) = 2.
Proof.
  assert (H1 : results (app uploaded) <> []) by (vm_compute; discriminate).
  assert (H2 : isProcessing (app uploaded) = false) by (vm_compute; reflexivity).
  assert (H3 : IdsAreIndices (results (app uploaded))).
  { intros [|[|[|i]]] r H; vm_compute in H; try discriminate;
      injection H as <-; reflexivity. }
  split; [exact H1|]. split; [exact H2|]. split; [exact H3|].
  unfold generated.
  destruct (batch_progress exampleParse echoingService exampleTypeError uploaded H1 H2 H3)
    as (calls & _ & Hcount & _).
  rewrite Hcount. reflexivity.
Defined.

Lemma identity_pinned_once_witness :
  results (app uploaded)
  = [newScene 0 (lit "a hero walks on the beach"); newScene 1 (lit "a hero sits by a fire")]
  /\ isProcessing (app uploaded) = false
  /\ baseCharacterProfile (app (generated echoingService)) = Some (identityOf beachPrompt).
Proof.
  assert (H1 : results (app uploaded)
               = [newScene 0 (lit "a hero walks on the beach");
                  newScene 1 (lit "a hero sits by a fire")]) by (vm_compute; reflexivity).
  assert (H2 : isProcessing (app uploaded) = false) by (vm_compute; reflexivity).
  split; [exact H1|]. split; [exact H2|].
  unfold generated.
  rewrite (proj1 (proj2 (identity_pinned_once exampleParse echoingService exampleTypeError
                           uploaded H1 H2))).
  vm_compute. reflexivity.
Defined.

Lemma identity_consistent_when_echoed_witness :
  results (app uploaded)
  = [newScene 0 (lit "a hero walks on the beach"); newScene 1 (lit "a hero sits by a fire")]
  /\ isProcessing (app uploaded) = false
  /\ IdsAreIndices (results (app uploaded))
  /\ Honoured exampleParse echoingService (List.length (inFlight uploaded))
       (inFlight (generated echoingService))
  /\ exists p0,
       promptAnswer exampleParse echoingService 0 (lit "a hero walks on the beach") None
       = Returned p0
       /\ baseCharacterProfile (app (generated echoingService)) = Some (identityOf p0).
Proof.
  assert (H1 : results (app uploaded)
               = [newScene 0 (lit "a hero walks on the beach");
                  newScene 1 (lit "a hero sits by a fire")]) by (vm_compute; reflexivity).
  assert (H2 : isProcessing (app uploaded) = false) by (vm_compute; reflexivity).
  assert (H3 : IdsAreIndices (results (app uploaded))).
  { intros [|[|[|i]]] r H; vm_compute in H; try discriminate;
      injection H as <-; reflexivity. }
  assert (H4 : Honoured exampleParse echoingService (List.length (inFlight uploaded))
                 (inFlight (snd (handleGenerateAll exampleParse echoingService
                                   exampleTypeError uploaded)))).
  { intros [|[|[|[|[|c]]]]] s b snap _ H; vm_compute in H; try discriminate;
      injection H as <- <- _.
    - exists beachPrompt. split; [vm_compute; reflexivity|]. split; [discriminate|]. discriminate.
    - exists firePrompt. split; [vm_compute; reflexivity|]. split; [discriminate|].
      intros base [= <-]. vm_compute. reflexivity. }
  unfold generated.
  split; [exact H1|]. split; [exact H2|]. split; [exact H3|]. split; [exact H4|].
  destruct (identity_consistent_when_echoed exampleTypeError uploaded H1 H2 H3 H4)
    as (p0 & Hp0 & Hprofile & _).
  exists p0. split; [exact Hp0 | exact Hprofile].
Defined.

Lemma rerun_frame_witness :
  editingScene (app (editing (exampleStringify editedPrompt)))
  = Some (secondItem (generated echoingService))
  /\ exampleParse (editedJsonText (app (editing (exampleStringify editedPrompt))))
     = Returned editedPrompt
  /\ baseCharacterProfile (app regenerated)
     = baseCharacterProfile (app (editing (exampleStringify editedPrompt))).
Proof.
  assert (H1 : editingScene (app (editing (exampleStringify editedPrompt)))
               = Some (secondItem (generated echoingService))) by (vm_compute; reflexivity).
  assert (H2 : exampleParse (editedJsonText (app (editing (exampleStringify editedPrompt))))
               = Returned editedPrompt) by (vm_compute; reflexivity).
  split; [exact H1|]. split; [exact H2|].
  unfold regenerated.
  destruct (rerun_frame exampleParse echoingService exampleTypeError
              (editing (exampleStringify editedPrompt)) H1 H2)
    as (snap & _ & _ & _ & Hprofile & _).
  exact Hprofile.
Defined.

Lemma rerun_rejects_malformed_text_witness :
  editingScene (app (editing (lit "{oops")))
  = Some (secondItem (generated echoingService))
  /\ exampleParse (editedJsonText (app (editing (lit "{oops"))))
     = Thrown (Error (lit "Unexpected token"))
  /\ results (app (snd (handleRegenerate exampleParse echoingService exampleTypeError
                          (editing (lit "{oops")))))
     = results (app (editing (lit "{oops"))).
Proof.
  assert (H1 : editingScene (app (editing (lit "{oops")))
               = Some (secondItem (generated echoingService))) by (vm_compute; reflexivity).
  assert (H2 : exampleParse (editedJsonText (app (editing (lit "{oops"))))
               = Thrown (Error (lit "Unexpected token"))) by (vm_compute; reflexivity).
  split; [exact H1|]. split; [exact H2|].
  exact (proj1 (proj2 (proj2 (rerun_rejects_malformed_text exampleParse echoingService
                                exampleTypeError (editing (lit "{oops")) H1 H2)))).
Defined.

Lemma service_wrappers_witness :
  fst (generateCharacterJson exampleParse echoingService (lit "a hero walks on the beach")
         None uploaded)
  = Returned beachPrompt.
Proof.
  rewrite (proj1 (service_wrappers exampleParse echoingService exampleTypeError uploaded)).
  vm_compute. reflexivity.
Defined.

Lemma download_name_from_stored_prompt_witness :
  image (secondItem regenerated) = Some (dataUrl (lit "iVBORw0KGgo="))
  /\ dataUrl (lit "iVBORw0KGgo=") <> []
  /\ truthy (jsonPrompt (secondItem regenerated)) = true
  /\ property (jsonPrompt (secondItem regenerated)) (lit "character_id")
     = Some (JStr (lit "villain_02"))
  /\ option_map download (handleDownloadImage exampleToString (secondItem regenerated))
     = Some (lit "scene_villain_02_2.png").
Proof.
  assert (H1 : image (secondItem regenerated) = Some (dataUrl (lit "iVBORw0KGgo=")))
    by (vm_compute; reflexivity).
  assert (H2 : dataUrl (lit "iVBORw0KGgo=") <> []) by (vm_compute; discriminate).
  assert (H3 : truthy (jsonPrompt (secondItem regenerated)) = true) by (vm_compute; reflexivity).
  assert (H4 : property (jsonPrompt (secondItem regenerated)) (lit "character_id")
               = Some (JStr (lit "villain_02"))) by (vm_compute; reflexivity).
  split; [exact H1|]. split; [exact H2|]. split; [exact H3|]. split; [exact H4|].
  rewrite (download_name_from_stored_prompt exampleToString (secondItem regenerated) H1 H2 H3 H4).
  vm_compute. reflexivity.
Defined.

(* ================================================================== *)
(** * Where the specification and the code part *)

(** C1 as stated fails: with a service that answers every prompt request
    but does not echo the identity it is given, every prompt synthesis of the
    run succeeds, the exposed profile is item 0's identity, and the prompt
    stored on item 1 carries another [character_id]. *)
Lemma stray_identity_is_stored :
  (forall c s b snap,
     nth_error (inFlight (generated strayingService)) c
       = Some (CharacterJsonRequest s b, snap) ->
     exists p, promptAnswer exampleParse strayingService c s b = Returned p)
  /\ promptAnswer exampleParse strayingService 0 (lit "a hero walks on the beach") None
     = Returned beachPrompt
  /\ baseCharacterProfile (app (generated strayingService)) = Some (identityOf beachPrompt)
  /\ status (secondItem (generated strayingService)) = complete
  /\ character_id (identityOf (jsonPrompt (secondItem (generated strayingService))))
     = Some (JStr (lit "hero_02"))
  /\ character_id (identityOf beachPrompt) = Some (JStr (lit "hero_01")).
Proof.
  split; [|repeat split].
  intros [|[|[|[|[|c]]]]] s b snap H; vm_compute in H; try discriminate;
    injection H as <- <- _; eexists; reflexivity.
Qed.

(** C6 as stated fails: the re-run replaces the stored prompt of the item by
    the edited one. *)
Lemma rerun_replaces_stored_prompt :
  editingScene (app (editing (exampleStringify editedPrompt)))
  = Some (secondItem (generated echoingService))
  /\ jsonPrompt (secondItem (editing (exampleStringify editedPrompt))) = firePrompt
  /\ jsonPrompt (secondItem regenerated) = editedPrompt
  /\ jsonPrompt (secondItem regenerated)
     <> jsonPrompt (secondItem (editing (exampleStringify editedPrompt))).
Proof.
  split; [vm_compute; reflexivity|]. split; [vm_compute; reflexivity|].
  split; [vm_compute; reflexivity|]. vm_compute. discriminate.
Qed.

(** C8 as stated fails: a response whose text is the empty object has none
    of the required fields, and [generateCharacterJson] returns it. *)
Lemma empty_object_is_returned :
  emptyObjectService 0 (CharacterJsonRequest (lit "a hero walks on the beach") None)
  = Returned (textResponse (JObj []))
  /\ exampleParse (exampleStringify (JObj [])) = Returned (JObj [])
  /\ ~ WellShaped (JObj [])
  /\ fst (generateCharacterJson exampleParse emptyObjectService
            (lit "a hero walks on the beach") None uploaded)
     = Returned (JObj []).
Proof.
  split; [reflexivity|]. split; [vm_compute; reflexivity|].
  split; [intros ((s & Hs) & _); discriminate Hs|]. vm_compute. reflexivity.
Qed.

(** C9 as stated fails: after the user renamed the character in the editor
    and re-ran the second item, the run's pinned [character_id] is still
    hero_01, the item is complete, and its file is named after the
    [character_id] of its own stored prompt. *)
Lemma download_name_ignores_pinned_identity :
  option_map character_id (baseCharacterProfile (app regenerated))
  = Some (Some (JStr (lit "hero_01")))
  /\ status (secondItem regenerated) = complete
  /\ id (secondItem regenerated) = 1
  /\ option_map download (handleDownloadImage exampleToString (secondItem regenerated))
     = Some (lit "scene_villain_02_2.png")
  /\ option_map download (handleDownloadImage exampleToString (secondItem regenerated))
     <> Some (lit "scene_hero_01_2.png").
Proof.
  split; [vm_compute; reflexivity|]. split; [vm_compute; reflexivity|].
  split; [vm_compute; reflexivity|]. split; [vm_compute; reflexivity|].
  vm_compute. discriminate.
Qed.

(** C2 as stated fails across runs: after a first run has pinned hero_01, a
    second run started without a reset pins hero_02 over it; and a second run
    whose item 0 fails leaves hero_01 exposed, not an unset identity, while
    its own identity stays unset. *)
Lemma second_run_pins_again :
  option_map character_id (baseCharacterProfile (app (generated renamingService)))
  = Some (Some (JStr (lit "hero_01")))
  /\ isProcessing (app (generated renamingService)) = false
  /\ results (app (generated renamingService)) <> []
  /\ option_map character_id (baseCharacterProfile (app (generatedAgain renamingService)))
     = Some (Some (JStr (lit "hero_02")))
  /\ promptAnswer exampleParse outageService 4 (lit "a hero walks on the beach") None
     = Thrown (Error (lit "503 Service Unavailable"))
  /\ baseCharacter (generatedAgain outageService) = None
  /\ option_map character_id (baseCharacterProfile (app (generatedAgain outageService)))
     = Some (Some (JStr (lit "hero_01"))).
Proof.
  split; [vm_compute; reflexivity|]. split; [vm_compute; reflexivity|].
  split; [vm_compute; discriminate|]. split; [vm_compute; reflexivity|].
  split; [vm_compute; reflexivity|]. split; [vm_compute; reflexivity|].
  vm_compute. reflexivity.
Qed.

(* ================================================================== *)
(** * The further properties at the worked inputs *)

Lemma parse_success_means_valid_witness :
  parseScenes (JArr heroEntries)
  = Returned [newScene 0 (lit "a hero walks on the beach");
              newScene 1 (lit "a hero sits by a fire")]
  /\ exists entries, JArr heroEntries = JArr entries /\ entries <> [].
Proof.
  assert (H : parseScenes (JArr heroEntries)
              = Returned [newScene 0 (lit "a hero walks on the beach");
                          newScene 1 (lit "a hero sits by a fire")])
    by (vm_compute; reflexivity).
  split; [exact H|].
  destruct (parse_success_means_valid (JArr heroEntries) H) as (entries & He & Hne & _).
  exists entries. split; [exact He | exact Hne].
Defined.

Lemma parsed_scenes_are_trimmed_witness :
  parseScenes (JArr heroEntries)
  = Returned [newScene 0 (lit "a hero walks on the beach");
              newScene 1 (lit "a hero sits by a fire")]
  /\ In (newScene 1 (lit "a hero sits by a fire"))
        [newScene 0 (lit "a hero walks on the beach");
         newScene 1 (lit "a hero sits by a fire")]
  /\ scene (newScene 1 (lit "a hero sits by a fire")) <> [].
Proof.
  assert (H : parseScenes (JArr heroEntries)
              = Returned [newScene 0 (lit "a hero walks on the beach");
                          newScene 1 (lit "a hero sits by a fire")])
    by (vm_compute; reflexivity).
  assert (Hin : In (newScene 1 (lit "a hero sits by a fire"))
                   [newScene 0 (lit "a hero walks on the beach");
                    newScene 1 (lit "a hero sits by a fire")])
    by (right; left; reflexivity).
  split; [exact H|]. split; [exact Hin|].
  exact (proj1 (parsed_scenes_are_trimmed (JArr heroEntries) _ H Hin)).
Defined.

Lemma reparse_gives_same_batch_witness :
  parseScenes (JArr heroEntries)
  = Returned [newScene 0 (lit "a hero walks on the beach");
              newScene 1 (lit "a hero sits by a fire")]
  /\ parseScenes (JArr [JStr (lit "a hero walks on the beach");
                        JStr (lit "a hero sits by a fire")])
     = Returned [newScene 0 (lit "a hero walks on the beach");
                 newScene 1 (lit "a hero sits by a fire")].
Proof.
  assert (H : parseScenes (JArr heroEntries)
              = Returned [newScene 0 (lit "a hero walks on the beach");
                          newScene 1 (lit "a hero sits by a fire")])
    by (vm_compute; reflexivity).
  split; [exact H|].
  exact (reparse_gives_same_batch (JArr heroEntries) H).
Defined.

Lemma run_calls_are_paired_witness :
  results (app uploaded) <> []
  /\ isProcessing (app uploaded) = false
  /\ exists calls,
       inFlight (generated echoingService) = inFlight uploaded ++ calls
       /\ Paired exampleParse echoingService 0 (List.length (inFlight uploaded))
            (results (app uploaded)) calls.
Proof.
  assert (H1 : results (app uploaded) <> []) by (vm_compute; discriminate).
  assert (H2 : isProcessing (app uploaded) = false) by (vm_compute; reflexivity).
  split; [exact H1|]. split; [exact H2|]. unfold generated.
  destruct (run_calls_are_paired exampleParse echoingService exampleTypeError uploaded H1 H2)
    as (calls & Hlog & Hpaired & _).
  exists calls. split; [exact Hlog | exact Hpaired].
Defined.

Lemma run_blocks_reentry_witness :
  results (app uploaded) <> []
  /\ isProcessing (app uploaded) = false
  /\ isProcessing (app (generated echoingService)) = false.
Proof.
  assert (H1 : results (app uploaded) <> []) by (vm_compute; discriminate).
  assert (H2 : isProcessing (app uploaded) = false) by (vm_compute; reflexivity).
  split; [exact H1|]. split; [exact H2|]. unfold generated.
  destruct (run_blocks_reentry exampleParse echoingService exampleTypeError uploaded H1 H2)
    as (calls & _ & _ & _ & Hdown).
  exact Hdown.
Defined.

Lemma run_reports_position_witness :
  results (app uploaded) <> []
  /\ isProcessing (app uploaded) = false
  /\ progressMessage (app (generated echoingService))
     = lit "Batch processing complete. 2 scenes processed.".
Proof.
  assert (H1 : results (app uploaded) <> []) by (vm_compute; discriminate).
  assert (H2 : isProcessing (app uploaded) = false) by (vm_compute; reflexivity).
  split; [exact H1|]. split; [exact H2|]. unfold generated.
  destruct (run_reports_position exampleParse echoingService exampleTypeError uploaded H1 H2)
    as (calls & _ & _ & Hmsg).
  rewrite Hmsg. vm_compute. reflexivity.
Defined.

Lemma run_settles_every_item_witness :
  results (app uploaded) <> []
  /\ isProcessing (app uploaded) = false
  /\ IdsAreIndices (results (app uploaded))
  /\ nth_error (results (app uploaded)) 1 = Some (newScene 1 (lit "a hero sits by a fire"))
  /\ exists r, nth_error (results (app (generated echoingService))) 1 = Some r
               /\ id r = 1.
Proof.
  assert (H1 : results (app uploaded) <> []) by (vm_compute; discriminate).
  assert (H2 : isProcessing (app uploaded) = false) by (vm_compute; reflexivity).
  assert (H3 : IdsAreIndices (results (app uploaded))).
  { intros [|[|[|i]]] r H; vm_compute in H; try discriminate H;
      injection H as <-; reflexivity. }
  assert (H4 : nth_error (results (app uploaded)) 1
               = Some (newScene 1 (lit "a hero sits by a fire")))
    by (vm_compute; reflexivity).
  split; [exact H1|]. split; [exact H2|]. split; [exact H3|]. split; [exact H4|].
  unfold generated.
  destruct (run_settles_every_item exampleParse echoingService exampleTypeError
              uploaded H1 H2 H3 1 H4) as (r & Hr & Hidr & _).
  exists r. split; [exact Hr | exact Hidr].
Defined.

Lemma completed_items_export_witness :
  results (app uploaded) <> []
  /\ isProcessing (app uploaded) = false
  /\ IdsAreIndices (results (app uploaded))
  /\ nth_error (results (app (snd (handleGenerateAll exampleParse echoingService
                                     exampleTypeError uploaded)))) 1
     = Some (secondItem (generated echoingService))
  /\ status (secondItem (generated echoingService)) = complete
  /\ truthy (jsonPrompt (secondItem (generated echoingService))) = true
  /\ option_map download
       (handleDownloadImage exampleToString (secondItem (generated echoingService)))
     = Some (lit "scene_hero_01_2.png").
Proof.
  assert (H1 : results (app uploaded) <> []) by (vm_compute; discriminate).
  assert (H2 : isProcessing (app uploaded) = false) by (vm_compute; reflexivity).
  assert (H3 : IdsAreIndices (results (app uploaded))).
  { intros [|[|[|i]]] r H; vm_compute in H; try discriminate H;
      injection H as <-; reflexivity. }
  assert (H4 : nth_error (results (app (snd (handleGenerateAll exampleParse echoingService
                                               exampleTypeError uploaded)))) 1
               = Some (secondItem (generated echoingService)))
    by (vm_compute; reflexivity).
  assert (H5 : status (secondItem (generated echoingService)) = complete)
    by (vm_compute; reflexivity).
  assert (H6 : truthy (jsonPrompt (secondItem (generated echoingService))) = true)
    by (vm_compute; reflexivity).
  split; [exact H1|]. split; [exact H2|]. split; [exact H3|]. split; [exact H4|].
  split; [exact H5|]. split; [exact H6|].
  destruct (proj1 (completed_items_export exampleParse echoingService exampleTypeError
                     exampleToString uploaded H1 H2 H3 1 H4 H5) H6)
    as (img & _ & Hlink).
  rewrite Hlink. vm_compute. reflexivity.
Defined.

Lemma rerun_closes_editor_witness :
  editingScene (app (editing (exampleStringify editedPrompt)))
  = Some (secondItem (generated echoingService))
  /\ exampleParse (editedJsonText (app (editing (exampleStringify editedPrompt))))
     = Returned editedPrompt
  /\ isRegenerating (app (editing (exampleStringify editedPrompt))) = false
  /\ editingScene (app regenerated) = None.
Proof.
  assert (H1 : editingScene (app (editing (exampleStringify editedPrompt)))
               = Some (secondItem (generated echoingService)))
    by (vm_compute; reflexivity).
  assert (H2 : exampleParse (editedJsonText (app (editing (exampleStringify editedPrompt))))
               = Returned editedPrompt) by (vm_compute; reflexivity).
  assert (H3 : isRegenerating (app (editing (exampleStringify editedPrompt))) = false)
    by (vm_compute; reflexivity).
  split; [exact H1|]. split; [exact H2|]. split; [exact H3|]. unfold regenerated.
  exact (proj1 (proj2 (rerun_closes_editor exampleParse echoingService exampleTypeError
                         (editing (exampleStringify editedPrompt)) H1 H2 H3))).
Defined.

Lemma reopen_and_rerun_keeps_prompts_witness :
  nth_error (results (app (generated echoingService))) 1
  = Some (secondItem (generated echoingService))
  /\ IdsAreIndices (results (app (generated echoingService)))
  /\ truthy (jsonPrompt (secondItem (generated echoingService))) = true
  /\ exampleParse (exampleStringify (jsonPrompt (secondItem (generated echoingService))))
     = Returned (jsonPrompt (secondItem (generated echoingService)))
  /\ exists snap,
       inFlight (snd (handleRegenerate exampleParse echoingService exampleTypeError
                        (snd (handleOpenEditModal exampleStringify
                                (secondItem (generated echoingService))
                                (generated echoingService)))))
       = inFlight (generated echoingService)
         ++ [(ImageRequest (jsonPrompt (secondItem (generated echoingService))), snap)].
Proof.
  assert (H1 : nth_error (results (app (generated echoingService))) 1
               = Some (secondItem (generated echoingService)))
    by (vm_compute; reflexivity).
  assert (H2 : IdsAreIndices (results (app (generated echoingService)))).
  { intros [|[|[|i]]] r H; vm_compute in H; try discriminate H;
      injection H as <-; reflexivity. }
  assert (H3 : truthy (jsonPrompt (secondItem (generated echoingService))) = true)
    by (vm_compute; reflexivity).
  assert (H4 : exampleParse
                 (exampleStringify (jsonPrompt (secondItem (generated echoingService))))
               = Returned (jsonPrompt (secondItem (generated echoingService))))
    by (vm_compute; reflexivity).
  split; [exact H1|]. split; [exact H2|]. split; [exact H3|]. split; [exact H4|].
  exact (proj1 (reopen_and_rerun_keeps_prompts exampleParse echoingService exampleTypeError
                  exampleStringify (generated echoingService) 1 H1 H2 H3 H4)).
Defined.

Lemma image_read_from_first_candidate_only_witness :
  secondCandidateService (List.length (inFlight uploaded)) (ImageRequest beachPrompt)
  = Returned imageInSecondCandidate
  /\ HasImagePayload imageInSecondCandidate
  /\ fst (generateImageFromPrompt secondCandidateService exampleTypeError beachPrompt uploaded)
     = Thrown (Error (lit "No image data found in the API response.")).
Proof.
  assert (H1 : secondCandidateService (List.length (inFlight uploaded))
                 (ImageRequest beachPrompt) = Returned imageInSecondCandidate)
    by reflexivity.
  split; [exact H1|]. split.
  - eexists _, _, _, _, _, _. split; [reflexivity|]. split; [right; left; reflexivity|].
    split; [reflexivity|]. split; [reflexivity|]. split; [left; reflexivity | reflexivity].
  - assert (H2 : Forall (fun p => inlineData p = None) [{| inlineData := None |}])
      by (constructor; [reflexivity | constructor]).
    rewrite (@image_read_from_first_candidate_only secondCandidateService exampleTypeError
               uploaded beachPrompt imageInSecondCandidate
               {| content := Some {| parts := Some [{| inlineData := None |}] |} |}
               _ {| parts := Some [{| inlineData := None |}] |} [{| inlineData := None |}]
               H1 eq_refl eq_refl eq_refl H2).
    reflexivity.
Defined.

Lemma image_response_without_parts_throws_type_error_witness :
  candidates noCandidates = None
  /\ exists site,
       fst (generateImageFromPrompt (fun _ _ => Returned noCandidates) exampleTypeError
              beachPrompt uploaded)
       = Thrown (Error (exampleTypeError site)).
Proof.
  split; [reflexivity|].
  destruct (@image_response_without_parts_throws_type_error
              (fun _ _ => Returned noCandidates) exampleTypeError uploaded beachPrompt
              noCandidates eq_refl (or_introl eq_refl)) as (site & Hsite).
  exists site. rewrite Hsite. reflexivity.
Defined.

Lemma null_prompt_fails_item_0_witness :
  results (app uploaded)
  = [newScene 0 (lit "a hero walks on the beach"); newScene 1 (lit "a hero sits by a fire")]
  /\ isProcessing (app uploaded) = false
  /\ IdsAreIndices (results (app uploaded))
  /\ promptAnswer nullParse nullService (List.length (inFlight uploaded))
       (lit "a hero walks on the beach") None
     = Returned JNull
  /\ baseCharacter (snd (handleGenerateAll nullParse nullService exampleTypeError uploaded))
     = None.
Proof.
  assert (H1 : results (app uploaded)
               = [newScene 0 (lit "a hero walks on the beach");
                  newScene 1 (lit "a hero sits by a fire")]) by (vm_compute; reflexivity).
  assert (H2 : isProcessing (app uploaded) = false) by (vm_compute; reflexivity).
  assert (H3 : IdsAreIndices (results (app uploaded))).
  { intros [|[|[|i]]] r H; vm_compute in H; try discriminate H;
      injection H as <-; reflexivity. }
  assert (H4 : promptAnswer nullParse nullService (List.length (inFlight uploaded))
                 (scene (newScene 0 (lit "a hero walks on the beach"))) None
               = Returned JNull) by (vm_compute; reflexivity).
  split; [exact H1|]. split; [exact H2|]. split; [exact H3|]. split; [exact H4|].
  exact (proj1 (proj2 (proj2 (@null_prompt_fails_item_0 nullParse nullService
                                exampleTypeError uploaded _ _ H1 H2 H3 H4)))).
Defined.
